(** * Google Drive image path extractor (imagepath.py)

    A shallow embedding of the script
    [datasets/Food-101/imagepath.py]: the file lister
    ([get_image_files]), the memoising folder path resolver
    ([get_folder_path]), the report writer ([save_image_paths]) and the
    driver ([main]), followed by the properties of the specification.

    Modelling conventions.
    - Python [str] values are Rocq [string]s holding their UTF-8 encoding,
      one [ascii] per byte: what [input] decodes and what the files hold.
      [str.strip] removes the Unicode white space; [str.lower] acts on the
      letters A-Z, which is all that a comparison with an ASCII literal
      can see.
    - A Python [dict] read with [.get(key, default)] is a record of
      [option] fields; the memo cache [folder_cache] is a
      [gmap string string], passed and returned explicitly (one dict object
      is shared by all the calls of a run).
    - Only exceptions deriving from [Exception] are modelled; they carry
      their message.  The remote service is a pair of functions, so that a
      fixed service is deterministic.
    - Network calls, [print] and [input] are recorded in a trace of
      [event]s, in the order in which they happen.
    - The recursion of [get_folder_path] and the [while True] loop of
      [get_image_files] take a fuel argument; [None] means that the fuel
      ran out (the interpreter's own stack limit is not modelled). *)

From stdpp Require Import gmap strings list pretty.
From Stdlib Require Import Ascii String ZArith Lia.

Open Scope string_scope.
Open Scope list_scope.

(** ** Exceptions *)

Inductive outcome (A : Type) : Type :=
| Ret (a : A)
| Raise (e : string).
Arguments Ret {A} a.
Arguments Raise {A} e.

(** ** The Python string operations the script uses *)

Module Py.

(** [c.lower()] for one character. *)
Definition lower_char (c : ascii) : ascii :=
  let n := nat_of_ascii c in
  if (65 <=? n)%nat && (n <=? 90)%nat then ascii_of_nat (n + 32) else c.

(** [s.lower()]. *)
Fixpoint lower (s : string) : string :=
  match s with
  | EmptyString => EmptyString
  | String c s' => String (lower_char c) (lower s')
  end.

(** [c.isspace()] for a character below U+0080: tab, line feed, vertical
    tab, form feed, carriage return, the separators 0x1c-0x1f, and
    space. *)
Definition isspace (c : ascii) : bool :=
  let n := nat_of_ascii c in
  ((9 <=? n)%nat && (n <=? 13)%nat) || ((28 <=? n)%nat && (n <=? 32)%nat).

(** The other characters for which [c.isspace()] holds, by the bytes of
    their UTF-8 encoding: U+0085 and U+00A0 (two bytes); U+1680, U+2000
    to U+200A, U+2028, U+2029, U+202F, U+205F and U+3000 (three
    bytes). *)
Definition isspace2 (a b : ascii) : bool :=
  let m := nat_of_ascii a in
  let n := nat_of_ascii b in
  (m =? 194)%nat && ((n =? 133)%nat || (n =? 160)%nat).

Definition isspace3 (a b c : ascii) : bool :=
  let l := nat_of_ascii a in
  let m := nat_of_ascii b in
  let n := nat_of_ascii c in
  ((l =? 225)%nat && (m =? 154)%nat && (n =? 128)%nat)
  || ((l =? 226)%nat && (m =? 128)%nat
      && (((128 <=? n)%nat && (n <=? 138)%nat)
          || (n =? 168)%nat || (n =? 169)%nat || (n =? 175)%nat))
  || ((l =? 226)%nat && (m =? 129)%nat && (n =? 159)%nat)
  || ((l =? 227)%nat && (m =? 128)%nat && (n =? 128)%nat).

(** Dropping the white space at the head of [s], a character at a time;
    [two] and [three] recognise the characters of two and three bytes.
    In a well-formed UTF-8 text the bytes of an encoded character occur
    only as that character, at the head as well as at the end. *)
Fixpoint lstrip_by (two : ascii -> ascii -> bool)
    (three : ascii -> ascii -> ascii -> bool) (s : string) : string :=
  match s with
  | EmptyString => EmptyString
  | String a s1 =>
      if isspace a then lstrip_by two three s1
      else
        match s1 with
        | EmptyString => s
        | String b s2 =>
            if two a b then lstrip_by two three s2
            else
              match s2 with
              | EmptyString => s
              | String c s3 =>
                  if three a b c then lstrip_by two three s3 else s
              end
        end
  end.

Definition lstrip (s : string) : string := lstrip_by isspace2 isspace3 s.

(** [rstrip] does the same from the end: on the reversed text, with the
    bytes of a character in reverse order. *)
Definition rstrip (s : string) : string :=
  String.rev
    (lstrip_by (fun b a => isspace2 a b) (fun c b a => isspace3 a b c)
               (String.rev s)).

(** [s.strip()]. *)
Definition strip (s : string) : string := rstrip (lstrip s).

(** Truth value of a string: [if s:]. *)
Definition truthy (s : string) : bool :=
  match s with EmptyString => false | _ => true end.

(** Truth value of [d.get(key)]: an absent key gives [None]. *)
Definition truthy_opt (o : option string) : bool :=
  match o with
  | Some s => truthy s
  | None => false
  end.

(** [s.rfind(c)] for a one-character needle: the last index, or -1. *)
Fixpoint rfind_from (c : ascii) (s : string) (i last : Z) : Z :=
  match s with
  | EmptyString => last
  | String a s' =>
      rfind_from c s' (i + 1)%Z (if Ascii.eqb a c then i else last)
  end.

Definition rfind (c : ascii) (s : string) : Z := rfind_from c s 0%Z (-1)%Z.

(** [p[i:i+1] != "."] *)
Definition not_dot_at (p : string) (i : nat) : bool :=
  negb (String.eqb (substring i 1 p) ".").

(** The [while filenameIndex < dotIndex] loop of [genericpath._splitext]:
    [true] when some character of [p[start:start+n]] is not a dot. *)
Fixpoint has_non_dot (p : string) (start n : nat) : bool :=
  match n with
  | O => false
  | S n' => if not_dot_at p start then true else has_non_dot p (S start) n'
  end.

(** [os.path.splitext(p)] (posixpath: separator "/", no alternative
    separator, extension separator "."). *)
Definition splitext (p : string) : string * string :=
  let sepIndex := rfind "/" p in
  let dotIndex := rfind "." p in
  if (sepIndex <? dotIndex)%Z then
    let filenameIndex := Z.to_nat (sepIndex + 1) in
    let dot := Z.to_nat dotIndex in
    if has_non_dot p filenameIndex (dot - filenameIndex) then
      (substring 0 dot p, substring dot (String.length p - dot) p)
    else (p, EmptyString)
  else (p, EmptyString).

(** [s.replace(old, new)]: every non-overlapping occurrence of [old],
    scanning from the left.  [skip] counts the characters of a matched
    occurrence that remain to be dropped. *)
Fixpoint replace_from (old new s : string) (skip : nat) : string :=
  match s with
  | EmptyString =>
      match old with EmptyString => new | _ => EmptyString end
  | String c s' =>
      match skip with
      | S k => replace_from old new s' k
      | O =>
          if String.prefix old s then
            match old with
            | EmptyString => new +:+ String c (replace_from old new s' 0)
            | String _ old' =>
                new +:+ replace_from old new s' (String.length old')
            end
          else String c (replace_from old new s' 0)
      end
  end.

Definition replace (old new s : string) : string := replace_from old new s 0.

(** [sep.join(l)] *)
Definition join (sep : string) (l : list string) : string :=
  String.concat sep l.

End Py.

(** ** Data model *)

(** A file resource as the provider returns it: a dict whose keys may be
    absent. *)
Record raw_file := RawFile {
  rf_id : option string;
  rf_name : option string;
  rf_parents : option (list string);
  rf_webViewLink : option string;
  rf_webContentLink : option string
}.

(** One page of [files().list(...).execute()]. *)
Record page := Page {
  pg_files : option (list raw_file);
  pg_nextPageToken : option string
}.

(** The answer of [files().get(fileId=..., fields='name, parents')]. *)
Record folder := Folder {
  fo_name : option string;
  fo_parents : option (list string)
}.

(** The Drive service object: the two calls the script makes.  [pageSize]
    and [fields] are constants of the call sites and are left out. *)
Record service := Service {
  files_list : string -> option string -> outcome page;
  files_get : string -> outcome folder
}.

(** The dict that [get_image_files] appends for every image. *)
Record image := Image {
  img_name : string;
  img_id : string;
  img_web_view_link : string;
  img_web_content_link : string;
  img_parents : list string
}.

(** Observable events, in order of occurrence. *)
Inductive event :=
| EPrint (line : string)
| EInput (prompt : string)
| EList (q : string) (pageToken : option string)
| EGet (fileId : string).

#[global] Instance event_eq_dec : EqDecision event.
Proof. solve_decision. Defined.

(** [d.get(key, default)] *)
Definition get {A} (o : option A) (dflt : A) : A := default dflt o.

(** ** The file lister *)

Definition IMAGE_EXTENSIONS : gset string :=
  {[ ".jpg"; ".jpeg"; ".png"; ".gif"; ".bmp"; ".tiff"; ".tif"; ".webp";
     ".svg"; ".ico" ]}.

(** [os.path.splitext(name.lower())[1]] *)
Definition file_ext (name : string) : string := (Py.splitext (Py.lower name)).2.

(** The test [file_ext in IMAGE_EXTENSIONS] of the [for file in files]
    loop. *)
Definition is_image_name (name : string) : bool :=
  bool_decide (file_ext name ∈ IMAGE_EXTENSIONS).

Definition is_image_file (file : raw_file) : bool :=
  is_image_name (get (rf_name file) "").

(** The query string. *)
Definition build_query (folder_id : option string) : string :=
  match folder_id with
  | Some fid =>
      if Py.truthy fid then "trashed=false" +:+ " and '" +:+ fid +:+ "' in parents"
      else "trashed=false"
  | None => "trashed=false"
  end.

(** The dict built at lines 68-74; [file['id']] needs the key. *)
Definition to_image (file : raw_file) : option image :=
  match rf_id file with
  | Some i =>
      Some {| img_name := get (rf_name file) "";
              img_id := i;
              img_web_view_link := get (rf_webViewLink file) "";
              img_web_content_link := get (rf_webContentLink file) "";
              img_parents := get (rf_parents file) [] |}
  | None => None
  end.

(** The body of [for file in files]: append the image record; [file['id']]
    raises [KeyError] when the key is absent. *)
Fixpoint collect_images (files : list raw_file) (images : list image)
  : outcome (list image) :=
  match files with
  | [] => Ret images
  | file :: rest =>
      if is_image_file file then
        match to_image file with
        | Some img => collect_images rest (images ++ [img])
        | None => Raise "'id'"
        end
      else collect_images rest images
  end.

(** [if not page_token: break] *)
Definition more_pages (tok : option string) : bool := Py.truthy_opt tok.

(** The [while True] loop; [fuel] bounds the number of pages. *)
Fixpoint list_loop (svc : service) (query : string) (fuel : nat)
    (page_token : option string) (images : list image)
  : option (outcome (list image) * list event) :=
  match fuel with
  | O => None
  | S fuel' =>
      match files_list svc query page_token with
      | Raise e => Some (Raise e, [EList query page_token])
      | Ret results =>
          match collect_images (get (pg_files results) []) images with
          | Raise e => Some (Raise e, [EList query page_token])
          | Ret images' =>
              let page_token' := pg_nextPageToken results in
              if more_pages page_token' then
                match list_loop svc query fuel' page_token' images' with
                | Some (r, t) => Some (r, EList query page_token :: t)
                | None => None
                end
              else Some (Ret images', [EList query page_token])
          end
      end
  end.

Definition get_image_files (svc : service) (fuel : nat)
    (folder_id : option string)
  : option (outcome (list image) * list event) :=
  list_loop svc (build_query folder_id) fuel None [].

(** ** The folder path resolver *)

(** [f"{parent_path}/{folder_name}" if parent_path else folder_name] *)
Definition join_parent (parent_path folder_name : string) : string :=
  if Py.truthy parent_path then parent_path +:+ "/" +:+ folder_name
  else folder_name.

Definition folder_error (folder_id e : string) : event :=
  EPrint ("Error getting folder path for " +:+ folder_id +:+ ": " +:+ e).

(** [get_folder_path(service, folder_id, folder_cache)]: the result, the
    cache after the call, and the events of the call.  The callee never
    raises, so the [try] only catches the failure of [files().get]. *)
Fixpoint get_folder_path (svc : service) (fuel : nat) (folder_id : string)
    (folder_cache : gmap string string)
  : option (string * gmap string string * list event) :=
  match fuel with
  | O => None
  | S fuel' =>
      match folder_cache !! folder_id with
      | Some cached => Some (cached, folder_cache, [])
      | None =>
          match files_get svc folder_id with
          | Raise e =>
              Some ("Unknown", folder_cache,
                    [EGet folder_id; folder_error folder_id e])
          | Ret folder =>
              let folder_name := get (fo_name folder) "" in
              match get (fo_parents folder) [] with
              | parent :: _ =>
                  match get_folder_path svc fuel' parent folder_cache with
                  | None => None
                  | Some (parent_path, cache1, t) =>
                      let full_path := join_parent parent_path folder_name in
                      Some (full_path, <[folder_id := full_path]> cache1,
                            EGet folder_id :: t)
                  end
              | [] =>
                  Some (folder_name, <[folder_id := folder_name]> folder_cache,
                        [EGet folder_id])
              end
          end
      end
  end.

(** The call with the default argument [folder_cache=None]: a fresh dict. *)
Definition get_folder_path_default (svc : service) (fuel : nat)
    (folder_id : string) : option (string * gmap string string * list event) :=
  get_folder_path svc fuel folder_id ∅.

(** ** JSON output: [json.dump(obj, f, indent=2, ensure_ascii=False)] *)

#[local] Unset Elimination Schemes.
Inductive json :=
| JString (s : string)
| JArray (items : list json)
| JObject (members : list (string * json)).
#[local] Set Elimination Schemes.

Module Json.

Definition quote : string := String (ascii_of_nat 34) "".
Definition newline : string := String (ascii_of_nat 10) "".

Definition hex_digit (n : nat) : ascii :=
  if (n <? 10)%nat then ascii_of_nat (48 + n) else ascii_of_nat (87 + n).

(** The replacement of one character by [ESCAPE.sub]: the short escapes,
    [\u00xx] for the other control characters, the character itself
    otherwise. *)
Definition escape_char (c : ascii) : string :=
  let n := nat_of_ascii c in
  if (n =? 34)%nat then "\" +:+ quote
  else if (n =? 92)%nat then "\\"
  else if (n =? 10)%nat then "\n"
  else if (n =? 13)%nat then "\r"
  else if (n =? 9)%nat then "\t"
  else if (n =? 8)%nat then "\b"
  else if (n =? 12)%nat then "\f"
  else if (n <? 32)%nat then
    "\u00" +:+ String (hex_digit (n / 16)) (String (hex_digit (n mod 16)) "")
  else String c "".

Fixpoint escape (s : string) : string :=
  match s with
  | EmptyString => EmptyString
  | String c s' => escape_char c +:+ escape s'
  end.

(** [encode_basestring] *)
Definition dump_string (s : string) : string := quote +:+ escape s +:+ quote.

Fixpoint spaces (n : nat) : string :=
  match n with
  | O => EmptyString
  | S n' => String " " (spaces n')
  end.

(** ['\n' + indent * level] with [indent = 2] spaces *)
Definition newline_indent (level : nat) : string :=
  newline +:+ spaces (2 * level).

(** The encoder at nesting depth [level]: an empty container is [[]] or
    [{}]; otherwise one item per line, separated by [","], with [": "]
    after a key. *)
Fixpoint dump (level : nat) (v : json) : string :=
  match v with
  | JString s => dump_string s
  | JArray [] => "[]"
  | JArray items =>
      "[" +:+ newline_indent (S level)
          +:+ Py.join ("," +:+ newline_indent (S level))
                (map (dump (S level)) items)
          +:+ newline_indent level +:+ "]"
  | JObject [] => "{}"
  | JObject members =>
      "{" +:+ newline_indent (S level)
          +:+ Py.join ("," +:+ newline_indent (S level))
                (map (fun kv => dump_string kv.1 +:+ ": " +:+ dump (S level) kv.2)
                     members)
          +:+ newline_indent level +:+ "}"
  end.

Definition dumps (v : json) : string := dump 0 v.

(** *** [json.load]: the decoder, on the fragment of JSON made of
    strings, arrays and objects (numbers and literals are not
    modelled, and a [\u] escape is accepted below 0x80 only). *)

(** [WHITESPACE]: space, tab, line feed, carriage return. *)
Definition is_ws (c : ascii) : bool :=
  let n := nat_of_ascii c in
  (n =? 32)%nat || (n =? 9)%nat || (n =? 10)%nat || (n =? 13)%nat.

Fixpoint skip_ws (s : string) : string :=
  match s with
  | EmptyString => EmptyString
  | String c s' => if is_ws c then skip_ws s' else s
  end.

Definition hex_value (c : ascii) : option nat :=
  let n := nat_of_ascii c in
  if (48 <=? n)%nat && (n <=? 57)%nat then Some (n - 48)
  else if (97 <=? n)%nat && (n <=? 102)%nat then Some (n - 87)
  else if (65 <=? n)%nat && (n <=? 70)%nat then Some (n - 55)
  else None.

Definition hex4 (a b c d : ascii) : option nat :=
  match hex_value a, hex_value b, hex_value c, hex_value d with
  | Some x, Some y, Some z, Some w => Some (((x * 16 + y) * 16 + z) * 16 + w)
  | _, _, _, _ => None
  end.

(** [BACKSLASH]: the character an escape letter stands for. *)
Definition unescape (c : ascii) : option ascii :=
  let n := nat_of_ascii c in
  if (n =? 34)%nat then Some c
  else if (n =? 92)%nat then Some c
  else if (n =? 47)%nat then Some c
  else if (n =? 98)%nat then Some (ascii_of_nat 8)
  else if (n =? 102)%nat then Some (ascii_of_nat 12)
  else if (n =? 110)%nat then Some (ascii_of_nat 10)
  else if (n =? 114)%nat then Some (ascii_of_nat 13)
  else if (n =? 116)%nat then Some (ascii_of_nat 9)
  else None.

Definition cons_char (c : ascii) (r : option (string * string))
  : option (string * string) :=
  match r with
  | Some (str, rest) => Some (String c str, rest)
  | None => None
  end.

(** [scanstring], strict: from the character after the opening quote to
    the closing quote; a raw control character is an error. *)
Fixpoint scanstring (s : string) : option (string * string) :=
  match s with
  | EmptyString => None
  | String c r =>
      let n := nat_of_ascii c in
      if (n =? 34)%nat then Some (EmptyString, r)
      else if (n =? 92)%nat then
        match r with
        | EmptyString => None
        | String e r' =>
            if (nat_of_ascii e =? 117)%nat then
              match r' with
              | String h1 (String h2 (String h3 (String h4 r''))) =>
                  match hex4 h1 h2 h3 h4 with
                  | Some code =>
                      if (code <? 128)%nat then
                        cons_char (ascii_of_nat code) (scanstring r'')
                      else None
                  | None => None
                  end
              | _ => None
              end
            else
              match unescape e with
              | Some ch => cons_char ch (scanstring r')
              | None => None
              end
        end
      else if (n <? 32)%nat then None
      else cons_char c (scanstring r)
  end.

(** [scan_once] with [JSONArray] and [JSONObject]; each skips the
    whitespace before what it reads. *)
Fixpoint scan_once (fuel : nat) (s : string) : option (json * string) :=
  match fuel with
  | O => None
  | S fuel' =>
      match skip_ws s with
      | EmptyString => None
      | String c r =>
          let n := nat_of_ascii c in
          if (n =? 34)%nat then
            match scanstring r with
            | Some (str, rest) => Some (JString str, rest)
            | None => None
            end
          else if (n =? 91)%nat then
            match skip_ws r with
            | EmptyString => None
            | String c2 r2 =>
                if (nat_of_ascii c2 =? 93)%nat then Some (JArray [], r2)
                else
                  match scan_items fuel' r with
                  | Some (items, rest) => Some (JArray items, rest)
                  | None => None
                  end
            end
          else if (n =? 123)%nat then
            match skip_ws r with
            | EmptyString => None
            | String c2 r2 =>
                if (nat_of_ascii c2 =? 125)%nat then Some (JObject [], r2)
                else
                  match scan_members fuel' r with
                  | Some (members, rest) => Some (JObject members, rest)
                  | None => None
                  end
            end
          else None
      end
  end
with scan_items (fuel : nat) (s : string) : option (list json * string) :=
  match fuel with
  | O => None
  | S fuel' =>
      match scan_once fuel' s with
      | None => None
      | Some (v, r) =>
          match skip_ws r with
          | EmptyString => None
          | String c r' =>
              if (nat_of_ascii c =? 93)%nat then Some ([v], r')
              else if (nat_of_ascii c =? 44)%nat then
                match scan_items fuel' r' with
                | Some (vs, rest) => Some (v :: vs, rest)
                | None => None
                end
              else None
          end
      end
  end
with scan_members (fuel : nat) (s : string)
  : option (list (string * json) * string) :=
  match fuel with
  | O => None
  | S fuel' =>
      match skip_ws s with
      | EmptyString => None
      | String c r =>
          if (nat_of_ascii c =? 34)%nat then
            match scanstring r with
            | None => None
            | Some (key, r1) =>
                match skip_ws r1 with
                | EmptyString => None
                | String c1 r2 =>
                    if (nat_of_ascii c1 =? 58)%nat then
                      match scan_once fuel' r2 with
                      | None => None
                      | Some (v, r3) =>
                          match skip_ws r3 with
                          | EmptyString => None
                          | String c3 r4 =>
                              if (nat_of_ascii c3 =? 125)%nat then
                                Some ([(key, v)], r4)
                              else if (nat_of_ascii c3 =? 44)%nat then
                                match scan_members fuel' r4 with
                                | Some (ms, rest) =>
                                    Some ((key, v) :: ms, rest)
                                | None => None
                                end
                              else None
                          end
                      end
                    else None
                end
            end
          else None
      end
  end.

(** [json.loads]: one value, then nothing but whitespace. *)
Definition loads (s : string) : option json :=
  match scan_once (S (String.length s)) s with
  | Some (v, rest) =>
      match skip_ws rest with
      | EmptyString => Some v
      | _ => None
      end
  | None => None
  end.

(** [d[key]] on a decoded object: the last binding of a repeated key is
    the one the dict keeps. *)
Fixpoint lookup_key (key : string) (members : list (string * json))
  : option json :=
  match members with
  | [] => None
  | (k, v) :: rest =>
      match lookup_key key rest with
      | Some v' => Some v'
      | None => if String.eqb k key then Some v else None
      end
  end.

(** Sizes, for the fuel of the decoder. *)
Fixpoint size (v : json) : nat :=
  match v with
  | JString _ => 1
  | JArray items => S (list_sum (map (fun v => S (size v)) items))
  | JObject members =>
      S (list_sum (map (fun kv => S (size kv.2)) members))
  end.

End Json.

(** [[r['id'] for r in data]] on a decoded document: the ids of the records
    of an array of objects. *)
Definition record_id (v : json) : option string :=
  match v with
  | JObject members =>
      match Json.lookup_key "id" members with
      | Some (JString s) => Some s
      | _ => None
      end
  | _ => None
  end.

Definition json_ids (v : json) : option (list string) :=
  match v with
  | JArray records => mapM record_id records
  | _ => None
  end.

(** The image dict, keys in insertion order. *)
Definition image_to_json (img : image) : json :=
  JObject [ ("name", JString (img_name img));
            ("id", JString (img_id img));
            ("web_view_link", JString (img_web_view_link img));
            ("web_content_link", JString (img_web_content_link img));
            ("parents", JArray (map JString (img_parents img))) ].

Definition images_to_json (images : list image) : json :=
  JArray (map image_to_json images).

(** ** The world of a run and the monad of the driver *)

(** [w_stdin]: the lines [input()] will read; [w_files]: the files of the
    working directory, by name; [w_denied]: the names [open(name, 'w')]
    cannot open, with the error message; [w_trace]: the events so far.
    A file is known by the name given to [open]: two names of one file,
    such as [out.txt] and [./out.txt], are two keys here. *)
Record world := World {
  w_stdin : list string;
  w_files : gmap string string;
  w_denied : gmap string string;
  w_trace : list event
}.

(** A computation that may run out of fuel ([None]), return or raise. *)
Definition M (A : Type) : Type := world -> option (outcome A * world).

#[global] Instance M_ret : MRet M := fun A a w => Some (Ret a, w).

#[global] Instance M_bind : MBind M := fun A B f m w =>
  match m w with
  | None => None
  | Some (Raise e, w') => Some (Raise e, w')
  | Some (Ret a, w') => f a w'
  end.

Definition emit (t : list event) : M unit := fun w =>
  Some (Ret tt, {| w_stdin := w_stdin w; w_files := w_files w;
                   w_denied := w_denied w; w_trace := w_trace w ++ t |}).

Definition print (line : string) : M unit := emit [EPrint line].

(** [input(prompt)]: the next line of standard input, [EOFError] at its end. *)
Definition input (prompt : string) : M string := fun w =>
  match w_stdin w with
  | [] =>
      Some (Raise "EOF when reading a line",
            {| w_stdin := []; w_files := w_files w; w_denied := w_denied w;
               w_trace := w_trace w ++ [EInput prompt] |})
  | line :: rest =>
      Some (Ret line,
            {| w_stdin := rest; w_files := w_files w; w_denied := w_denied w;
               w_trace := w_trace w ++ [EInput prompt] |})
  end.

(** [open(path, 'w')]: the file is created or truncated. *)
Definition open_w (path : string) : M unit := fun w =>
  match w_denied w !! path with
  | Some e => Some (Raise e, w)
  | None =>
      Some (Ret tt, {| w_stdin := w_stdin w;
                       w_files := <[path := ""]> (w_files w);
                       w_denied := w_denied w; w_trace := w_trace w |})
  end.

(** [f.write(text)] on the file opened at [path]. *)
Definition write (path text : string) : M unit := fun w =>
  Some (Ret tt, {| w_stdin := w_stdin w;
                   w_files := <[path := get (w_files w !! path) "" +:+ text]>
                                (w_files w);
                   w_denied := w_denied w; w_trace := w_trace w |}).

Definition read_files : M (gmap string string) := fun w => Some (Ret (w_files w), w).

Definition of_outcome {A} (o : outcome A) : M A := fun w => Some (o, w).

(** ** The authenticator *)

Record creds := Creds {
  cr_valid : bool;
  cr_expired : bool;
  cr_refresh_token : option string;
  cr_to_json : string
}.

(** The OAuth library and service: parsing a stored token, refreshing
    it, the interactive flow (from the contents of [credentials.json], if
    the file exists), and [build]. *)
Record oauth := OAuth {
  from_authorized_user_file : string -> outcome creds;
  refresh : creds -> outcome creds;
  run_local_server : option string -> outcome creds;
  build : creds -> outcome service
}.

Definition save_token (c : creds) : M unit :=
  open_w "token.json";; write "token.json" (cr_to_json c).

Definition authenticate_gdrive (lib : oauth) : M service :=
  files ← read_files;
  stored ← match files !! "token.json" with
           | Some text => c ← of_outcome (from_authorized_user_file lib text);
                          mret (Some c)
           | None => mret None
           end;
  c ← match stored with
      | Some c =>
          if cr_valid c then mret c
          else if cr_expired c && Py.truthy_opt (cr_refresh_token c) then
            c' ← of_outcome (refresh lib c); save_token c';; mret c'
          else
            c' ← of_outcome (run_local_server lib (files !! "credentials.json"));
            save_token c';; mret c'
      | None =>
          c' ← of_outcome (run_local_server lib (files !! "credentials.json"));
          save_token c';; mret c'
      end;
  of_outcome (build lib c).

(** ** The report writer *)

(** Lines 119-123: the full path of one image. *)
Definition image_full_path (svc : service) (fuel : nat) (img : image)
    (folder_cache : gmap string string)
  : option (string * gmap string string * list event) :=
  match img_parents img with
  | parent :: _ =>
      match get_folder_path svc fuel parent folder_cache with
      | Some (folder_path, cache1, t) =>
          Some (folder_path +:+ "/" +:+ img_name img, cache1, t)
      | None => None
      end
  | [] => Some (img_name img, folder_cache, [])
  end.

(** Lines 126-129: the line written for one image. *)
Definition report_line (include_links : bool) (full_path : string)
    (img : image) : string :=
  if include_links then
    full_path +:+ " | " +:+ img_id img +:+ " | " +:+ img_web_view_link img
              +:+ " | " +:+ img_web_content_link img +:+ Json.newline
  else full_path +:+ Json.newline.

(** The [for img in images] loop. *)
Fixpoint write_images (svc : service) (fuel : nat) (output_file : string)
    (include_links : bool) (images : list image)
    (folder_cache : gmap string string) : M (gmap string string) :=
  match images with
  | [] => mret folder_cache
  | img :: rest =>
      match image_full_path svc fuel img folder_cache with
      | None => fun _ => None
      | Some (full_path, cache1, t) =>
          emit t;;
          write output_file (report_line include_links full_path img);;
          write_images svc fuel output_file include_links rest cache1
      end
  end.

Definition report_header (n : nat) : string :=
  "# Google Drive Image Paths" +:+ Json.newline
  +:+ "# Total images found: " +:+ pretty n +:+ Json.newline
  +:+ "# Format: [Full Path] | [File ID] | [View Link] | [Download Link]"
  +:+ Json.newline +:+ Json.newline.

Definition save_image_paths (images : list image) (svc : service) (fuel : nat)
    (output_file : string) (include_links : bool) : M unit :=
  open_w output_file;;
  write output_file (report_header (List.length images));;
  write_images svc fuel output_file include_links images ∅;;
  print ("Image paths saved to " +:+ output_file).

(** ** The driver *)

(** Line 165: [output_file.replace('.txt', '.json')] *)
Definition json_file_of (output_file : string) : string :=
  Py.replace ".txt" ".json" output_file.

(** Lines 141-143: the folder scope typed by the user, [None] for the
    whole Drive. *)
Definition folder_scope (line : string) : option string :=
  if Py.truthy (Py.strip line) then Some (Py.strip line) else None.

(** The call of [get_image_files] in the world: its events, its result. *)
Definition run_listing (svc : service) (fuel : nat)
    (folder_id : option string) : M (list image) := fun w =>
  match get_image_files svc fuel folder_id with
  | None => None
  | Some (r, t) => (emit t;; of_outcome r) w
  end.

(** The body of the [try] of [main]. *)
Definition main_body (lib : oauth) (fuel : nat) : M unit :=
  print "Authenticating with Google Drive...";;
  svc ← authenticate_gdrive lib;
  line ← input "Enter folder ID (press Enter for entire Drive): ";
  let folder_id := folder_scope line in
  print "Searching for image files...";;
  images ← run_listing svc fuel folder_id;
  match images with
  | [] => print "No image files found."
  | _ =>
      print ("Found " +:+ pretty (List.length images) +:+ " image files.");;
      line ← input "Output filename (default: image_paths.txt): ";
      let output_file :=
        if Py.truthy (Py.strip line) then Py.strip line else "image_paths.txt" in
      line ← input "Include download links? (y/n, default: y): ";
      let include_links := negb (String.eqb (Py.lower (Py.strip line)) "n") in
      save_image_paths images svc fuel output_file include_links;;
      let json_file := json_file_of output_file in
      open_w json_file;;
      write json_file (Json.dumps (images_to_json images));;
      print ("Also saved JSON data to " +:+ json_file)
  end.

(** [main()]: every exception of the body is printed; the function itself
    returns normally. *)
Definition main (lib : oauth) (fuel : nat) (w : world) : option world :=
  match main_body lib fuel w with
  | None => None
  | Some (Ret _, w') => Some w'
  | Some (Raise e, w') =>
      match print ("Error: " +:+ e) w' with
      | Some (_, w'') => Some w''
      | None => None
      end
  end.

(** ** Notions used by the statements *)

(** The first parent of a folder's metadata, as line 93-96 reads it. *)
Definition first_parent (f : folder) : option string :=
  head (get (fo_parents f) []).

(** [chain svc fid names]: the metadata of [fid] and of its successive
    first parents can all be fetched, the last one has no parent, and
    [names] are the folder names from that root down to [fid].  A
    derivation is finite, so such a chain has no cycle. *)
Inductive chain (svc : service) : string -> list string -> Prop :=
| chain_root fid f :
    files_get svc fid = Ret f ->
    first_parent f = None ->
    chain svc fid [get (fo_name f) ""]
| chain_step fid f parent names :
    files_get svc fid = Ret f ->
    first_parent f = Some parent ->
    chain svc parent names ->
    chain svc fid (names ++ [get (fo_name f) ""]).

(** [settles svc d fid]: following first parents from [fid], a fetch fails
    or a parentless folder is reached after at most [d] steps. *)
Inductive settles (svc : service) : nat -> string -> Prop :=
| settles_fail d fid e :
    files_get svc fid = Raise e -> settles svc d fid
| settles_root d fid f :
    files_get svc fid = Ret f -> first_parent f = None -> settles svc d fid
| settles_step d fid f parent :
    files_get svc fid = Ret f ->
    first_parent f = Some parent ->
    settles svc d parent ->
    settles svc (S d) fid.

(** The caches a run can build: the empty dict, then whatever a call of
    the resolver leaves. *)
Inductive reachable (svc : service) : gmap string string -> Prop :=
| reach_empty : reachable svc ∅
| reach_call c fuel fid p c' t :
    reachable svc c ->
    get_folder_path svc fuel fid c = Some (p, c', t) ->
    reachable svc c'.

(** The path of a folder computed without any cache: the reference the
    memoised resolver is compared with. *)
Fixpoint path_of (svc : service) (fuel : nat) (folder_id : string)
  : option string :=
  match fuel with
  | O => None
  | S fuel' =>
      match files_get svc folder_id with
      | Raise _ => Some "Unknown"
      | Ret f =>
          match first_parent f with
          | Some parent =>
              match path_of svc fuel' parent with
              | Some parent_path =>
                  Some (join_parent parent_path (get (fo_name f) ""))
              | None => None
              end
          | None => Some (get (fo_name f) "")
          end
      end
  end.

(** The names of a chain without its leading empty names. *)
Fixpoint drop_empty (names : list string) : list string :=
  match names with
  | [] => []
  | n :: rest => if Py.truthy n then names else drop_empty rest
  end.

(** Number of metadata fetches of [fid] in a trace. *)
Fixpoint fetch_count (fid : string) (t : list event) : nat :=
  match t with
  | [] => 0
  | EGet x :: t' =>
      if String.eqb x fid then S (fetch_count fid t') else fetch_count fid t'
  | _ :: t' => fetch_count fid t'
  end.

(** Every entry of the cache is the path the reference computes. *)
Definition consistent (svc : service) (c : gmap string string) : Prop :=
  forall k v, c !! k = Some v -> exists n, path_of svc n k = Some v.

(** What the report holds for one image: the line of some full path, which
    is "Unknown/" followed by the image's name when the image's first
    parent is [fid]. *)
Definition degraded_line (fid : string) (include_links : bool)
    (img : image) (line : string) : Prop :=
  exists full_path,
    line = report_line include_links full_path img
    /\ (head (img_parents img) = Some fid ->
        full_path = "Unknown/" +:+ img_name img).

(** [w1] differs from [w] at most in the file [token.json]. *)
Definition same_but_token (w w1 : world) : Prop :=
  w_stdin w1 = w_stdin w /\ w_denied w1 = w_denied w
  /\ w_trace w1 = w_trace w
  /\ forall path, path <> "token.json" ->
                  w_files w1 !! path = w_files w !! path.

(** A computation that touches nothing but the file [token.json]. *)
Definition token_only {A} (m : M A) : Prop :=
  forall w r w1, m w = Some (r, w1) -> same_but_token w w1.

(** The files of the pages that the loop of [get_image_files] requests,
    in order. *)
Fixpoint listed_files (svc : service) (query : string) (fuel : nat)
    (page_token : option string) : option (list raw_file) :=
  match fuel with
  | O => None
  | S fuel' =>
      match files_list svc query page_token with
      | Raise _ => Some []
      | Ret results =>
          if more_pages (pg_nextPageToken results) then
            match listed_files svc query fuel' (pg_nextPageToken results) with
            | Some files => Some (get (pg_files results) [] ++ files)
            | None => None
            end
          else Some (get (pg_files results) [])
      end
  end.

(** The sizes of the items of an array and of the members of an
    object, and the line of one member in the encoder's output. *)
Definition items_size (items : list json) : nat :=
  list_sum (map (fun v => S (Json.size v)) items).

Definition members_size (members : list (string * json)) : nat :=
  list_sum (map (fun kv => S (Json.size kv.2)) members).

Definition dump_member (level : nat) (kv : string * json) : string :=
  Json.dump_string kv.1 +:+ ": " +:+ Json.dump level kv.2.

(** [old in s]: some suffix of [s] starts with [old]. *)
Fixpoint occurs (old s : string) : bool :=
  String.prefix old s
  || match s with
     | EmptyString => false
     | String _ s' => occurs old s'
     end.

(** Concatenation of the strings of a list. *)
Definition cat (l : list string) : string := foldr String.append "" l.

(** The cache left by resolving the folders of a list in turn. *)
Definition resolve_all (svc : service) (fuel : nat) (fids : list string)
    (c : gmap string string) : gmap string string :=
  foldl (fun c fid =>
           match get_folder_path svc fuel fid c with
           | Some (_, c', _) => c'
           | None => c
           end) c fids.

(** ** A small Drive, for the examples

    Folders: [f1] "Photos" (a root) with child [f2] "2024"; [bad], whose
    metadata cannot be fetched, with children [c] "child" and [c2]
    "child2"; [e], a root whose metadata has no name, with child [e1]
    "2024"; [u], a root named "Unknown".  The listing has two pages, and
    one file is in the trash. *)
Module Demo.

Definition files_get (fid : string) : outcome folder :=
  if String.eqb fid "f1" then Ret (Folder (Some "Photos") None)
  else if String.eqb fid "f2" then Ret (Folder (Some "2024") (Some ["f1"]))
  else if String.eqb fid "c" then Ret (Folder (Some "child") (Some ["bad"]))
  else if String.eqb fid "c2" then Ret (Folder (Some "child2") (Some ["bad"]))
  else if String.eqb fid "e" then Ret (Folder None (Some []))
  else if String.eqb fid "e1" then Ret (Folder (Some "2024") (Some ["e"]))
  else if String.eqb fid "u" then Ret (Folder (Some "Unknown") None)
  else Raise "HttpError 404".

Definition img1 : raw_file :=
  RawFile (Some "1") (Some "IMG.JPG") (Some ["f2"]) (Some "v1") None.
Definition txt : raw_file :=
  RawFile (Some "2") (Some "notes.txt") (Some ["f2"]) None None.
Definition img3 : raw_file :=
  RawFile (Some "3") (Some "b.png") (Some ["c"]) None None.
Definition img4 : raw_file :=
  RawFile (Some "4") (Some "q.gif") (Some ["c2"]) None None.

(** A file in the trash, which the provider lists only when the query
    does not exclude trashed files. *)
Definition old : raw_file :=
  RawFile (Some "9") (Some "old.png") (Some ["f2"]) None None.

Definition files_list (q : string) (tok : option string) : outcome page :=
  match tok with
  | None =>
      Ret (Page (Some (if String.prefix "trashed=false" q
                       then [img1; txt] else [img1; old; txt]))
                (Some "t2"))
  | Some _ => Ret (Page (Some [img3; img4]) None)
  end.

Definition svc : service := Service files_list files_get.

(** A Drive with no file at all. *)
Definition empty_svc : service :=
  Service (fun _ _ => Ret (Page None None)) files_get.

Definition token : creds := Creds true false None "{}".

Definition lib (s : service) : oauth :=
  OAuth (fun _ => Raise "bad token") (fun c => Ret c) (fun _ => Ret token)
        (fun _ => Ret s).

Definition image1 : image := Image "IMG.JPG" "1" "v1" "" ["f2"].
Definition image3 : image := Image "b.png" "3" "" "" ["c"].
Definition image4 : image := Image "q.gif" "4" "" "" ["c2"].

Definition image5 : image := Image "x.png" "5" "" "" ["bad"].
Definition image6 : image := Image "top.png" "6" "" "" ["f1"].

(** A world with the given lines on standard input and no file. *)
Definition world_of (lines : list string) : world := World lines ∅ ∅ [].

End Demo.

(** * Notions for the further properties *)

(** [pages_end svc q n tok]: requesting the pages of [q] from the token
    [tok] on, a request fails or a page without continuation token is
    reached within [n] further pages. *)
Inductive pages_end (svc : service) (q : string)
  : nat -> option string -> Prop :=
| pages_end_fail n tok e :
    files_list svc q tok = Raise e -> pages_end svc q n tok
| pages_end_last n tok results :
    files_list svc q tok = Ret results ->
    more_pages (pg_nextPageToken results) = false ->
    pages_end svc q n tok
| pages_end_next n tok results :
    files_list svc q tok = Ret results ->
    more_pages (pg_nextPageToken results) = true ->
    pages_end svc q n (pg_nextPageToken results) ->
    pages_end svc q (S n) tok.

(** ** More small worlds, for the examples *)
Module Demo2.

(** A Drive whose listing request fails. *)
Definition failing_svc : service :=
  Service (fun _ _ => Raise "HttpError 500") Demo.files_get.

(** An OAuth library for which every stored token is malformed. *)
Definition lib : oauth :=
  OAuth (fun _ => Raise "bad token") (fun c => Ret c)
        (fun _ => Ret Demo.token) (fun _ => Ret Demo.svc).

(** A world with a stored token. *)
Definition world : world :=
  World ["x"] {["token.json" := "garbage"]} ∅ [].

(** An OAuth library for which the stored token is valid. *)
Definition good_lib : oauth :=
  OAuth (fun _ => Ret Demo.token) (fun c => Ret c)
        (fun _ => Ret Demo.token) (fun _ => Ret Demo.svc).

End Demo2.

(** The world after [token.json] has been rewritten with the credentials
    [c] (lines 37-38). *)
Definition token_saved (c : creds) (w : world) : world :=
  {| w_stdin := w_stdin w;
     w_files := <["token.json" := cr_to_json c]> (w_files w);
     w_denied := w_denied w;
     w_trace := w_trace w |}.

(** The OAuth library [lib] with another interactive flow. *)
Definition with_flow (lib : oauth) (flow : option string -> outcome creds)
  : oauth :=
  {| from_authorized_user_file := from_authorized_user_file lib;
     refresh := refresh lib;
     run_local_server := flow;
     build := build lib |}.

(** Lines 156-160: the output name and the link option as typed. *)
Definition output_name (line : string) : string :=
  if Py.truthy (Py.strip line) then Py.strip line else "image_paths.txt".

Definition links_wanted (line : string) : bool :=
  negb (String.eqb (Py.lower (Py.strip line)) "n").

(** The files of [w1] and of [w] agree on every path outside [P]. *)
Definition agree_off (P : string -> Prop) (w w1 : world) : Prop :=
  forall path, ~ P path -> w_files w1 !! path = w_files w !! path.

(** The files [main] may write, from the second line of its input. *)
Definition output_files (w : world) (path : string) : Prop :=
  path = "token.json"
  \/ path = output_name (nth 1 (w_stdin w) "")
  \/ path = json_file_of (output_name (nth 1 (w_stdin w) "")).

(** [c in s], for a character. *)
Fixpoint contains_char (c : ascii) (s : string) : bool :=
  match s with
  | EmptyString => false
  | String a s' => Ascii.eqb a c || contains_char c s'
  end.

(** [broken svc fid names]: following first parents from [fid], every
    fetch succeeds until a folder whose fetch fails; [names] are the names
    of the folders fetched, from the child of the failing folder down to
    [fid]. *)
Inductive broken (svc : service) : string -> list string -> Prop :=
| broken_here fid e :
    files_get svc fid = Raise e -> broken svc fid []
| broken_step fid f parent names :
    files_get svc fid = Ret f ->
    first_parent f = Some parent ->
    broken svc parent names ->
    broken svc fid (names ++ [get (fo_name f) ""]).

(** * A provider that evaluates the query *)

(** The provider's side of [files().list(q=...)], for the part of the Drive
    query language that the queries of the script are written in: the
    terms [trashed=false], [trashed=true] and ['id' in parents], combined
    with [and] and [or], where [and] binds tighter (the queries below have
    no [and] after an [or], so that reading them from left to right gives
    the same).  A string literal is enclosed in single quotes; inside it a
    backslash escapes the next character.  The library of the provider
    records for every file whether it is in the trash. *)
Module Drive.

Record entry := Entry { en_file : raw_file; en_trashed : bool }.

Inductive token :=
| TWord (w : string)
| TStr (s : string).

Inductive lex_state :=
| Idle
| InWord (w : string)
| InStr (s : string)
| InEsc (s : string).

Definition snoc (s : string) (c : ascii) : string := s +:+ String c "".

Fixpoint lex (q : string) (st : lex_state) : option (list token) :=
  match q with
  | EmptyString =>
      match st with
      | Idle => Some []
      | InWord w => Some [TWord w]
      | InStr _ | InEsc _ => None
      end
  | String c q' =>
      match st with
      | Idle =>
          if Ascii.eqb c " " then lex q' Idle
          else if Ascii.eqb c "'" then lex q' (InStr "")
          else lex q' (InWord (String c ""))
      | InWord w =>
          if Ascii.eqb c " " then cons (TWord w) <$> lex q' Idle
          else if Ascii.eqb c "'" then None
          else lex q' (InWord (snoc w c))
      | InStr s =>
          if Ascii.eqb c "'" then cons (TStr s) <$> lex q' Idle
          else if Ascii.eqb c "\" then lex q' (InEsc s)
          else lex q' (InStr (snoc s c))
      | InEsc s => lex q' (InStr (snoc s c))
      end
  end.

Inductive term :=
| Trashed (b : bool)
| InParents (fid : string).

Definition atom (toks : list token) : option term :=
  match toks with
  | [TWord w] =>
      if String.eqb w "trashed=false" then Some (Trashed false)
      else if String.eqb w "trashed=true" then Some (Trashed true)
      else None
  | [TStr s; TWord w1; TWord w2] =>
      if String.eqb w1 "in" && String.eqb w2 "parents"
      then Some (InParents s) else None
  | _ => None
  end.

(** The runs of tokens between two occurrences of the operator [op];
    [cur] is the run being read. *)
Fixpoint split_at (op : string) (toks cur : list token)
  : list (list token) :=
  match toks with
  | [] => [cur]
  | TWord w :: rest =>
      if String.eqb w op then cur :: split_at op rest []
      else split_at op rest (cur ++ [TWord w])
  | t :: rest => split_at op rest (cur ++ [t])
  end.

(** A query as a disjunction of conjunctions of terms; [None] for a text
    that is not a query. *)
Definition parse (q : string) : option (list (list term)) :=
  match lex q Idle with
  | Some toks =>
      mapM (fun conj => mapM atom (split_at "and" conj []))
           (split_at "or" toks [])
  | None => None
  end.

Definition holds (e : entry) (t : term) : bool :=
  match t with
  | Trashed b => Bool.eqb (en_trashed e) b
  | InParents fid => bool_decide (fid ∈ get (rf_parents (en_file e)) [])
  end.

Definition selects (f : list (list term)) (e : entry) : bool :=
  existsb (forallb (holds e)) f.

(** The answer to a listing request: the selected files on one page, or
    an error for a text that is not a query. *)
Definition files_list (lib : list entry) (q : string)
    (tok : option string) : outcome page :=
  match parse q with
  | Some f => Ret (Page (Some (en_file <$> List.filter (selects f) lib)) None)
  | None => Raise "HttpError 400: Invalid Value"
  end.

Definition svc (lib : list entry) : service :=
  Service (files_list lib) Demo.files_get.

(** The folder [f2] of [Demo], with one of its images in the trash. *)
Definition lib : list entry :=
  [Entry Demo.img1 false; Entry Demo.old true; Entry Demo.txt false;
   Entry Demo.img3 false; Entry Demo.img4 false].

Definition old_image : image := Image "old.png" "9" "" "" ["f2"].

(** A line typed at the folder id prompt. *)
Definition typed : string := "x' in parents or 'f2".

End Drive.

(** [honours svc lib]: every file that [svc] lists in answer to a query is
    the file of an entry of the library [lib] that the query selects. *)
Definition honours (svc : service) (lib : list Drive.entry) : Prop :=
  forall q tok results file,
    files_list svc q tok = Ret results ->
    file ∈ get (pg_files results) [] ->
    exists f e,
      Drive.parse q = Some f /\ e ∈ lib /\ Drive.en_file e = file
      /\ Drive.selects f e = true.

(** A folder id that fits in a string literal of the query as it is: no
    quote and no backslash. *)
Definition plain_id (fid : string) : bool :=
  negb (contains_char "'" fid) && negb (contains_char "\" fid).

(** The scope of the listing: the files of the folder, when one is given. *)
Definition in_scope (folder_id : option string) (file : raw_file) : Prop :=
  forall fid, folder_id = Some fid -> Py.truthy fid = true ->
              fid ∈ get (rf_parents file) [].

(** * Properties *)

(** ** The string operations on examples *)

Example lower_ex : Py.lower "IMG.JPG" = "img.jpg".
Proof. reflexivity. Qed.

Example strip_ex : Py.strip "  a b  " = "a b".
Proof. reflexivity. Qed.

(** A no-break space (U+00A0) before and an em space (U+2003) after. *)
Example strip_wide_ex :
  Py.strip (String (ascii_of_nat 194) (String (ascii_of_nat 160) "out.txt")
            +:+ String (ascii_of_nat 226)
                  (String (ascii_of_nat 128) (String (ascii_of_nat 131) "")))
  = "out.txt".
Proof. reflexivity. Qed.

(** The answer "n" to the last prompt, after an em space. *)
Example links_wanted_wide_ex :
  links_wanted (String (ascii_of_nat 226)
                  (String (ascii_of_nat 128) (String (ascii_of_nat 131) "n")))
  = false.
Proof. reflexivity. Qed.

Example splitext_ex1 : Py.splitext "img.jpg" = ("img", ".jpg").
Proof. reflexivity. Qed.

Example splitext_ex2 : Py.splitext ".jpg" = (".jpg", "").
Proof. reflexivity. Qed.

Example splitext_ex3 : Py.splitext "a.b/c" = ("a.b/c", "").
Proof. reflexivity. Qed.

Example splitext_ex4 : Py.splitext "d/..x.tar.gz" = ("d/..x.tar", ".gz").
Proof. reflexivity. Qed.

Example replace_ex1 : Py.replace ".txt" ".json" "a.txt.txt" = "a.json.json".
Proof. reflexivity. Qed.

Example replace_ex2 : Py.replace "aa" "b" "aaaaa" = "bba".
Proof. reflexivity. Qed.

Example replace_ex3 : Py.replace "" "-" "abc" = "-a-b-c-".
Proof. reflexivity. Qed.

(** ** The folder path resolver *)

(** One step of the resolver, with the first parent named. *)
Lemma get_folder_path_S svc fuel fid c :
  get_folder_path svc (S fuel) fid c =
  match c !! fid with
  | Some cached => Some (cached, c, [])
  | None =>
      match files_get svc fid with
      | Raise e => Some ("Unknown", c, [EGet fid; folder_error fid e])
      | Ret f =>
          match first_parent f with
          | Some parent =>
              match get_folder_path svc fuel parent c with
              | None => None
              | Some (parent_path, c1, t) =>
                  Some (join_parent parent_path (get (fo_name f) ""),
                        <[fid := join_parent parent_path (get (fo_name f) "")]> c1,
                        EGet fid :: t)
              end
          | None =>
              Some (get (fo_name f) "", <[fid := get (fo_name f) ""]> c,
                    [EGet fid])
          end
      end
  end.
Proof.
  simpl. unfold first_parent.
  destruct (c !! fid); [reflexivity|].
  destruct (files_get svc fid) as [f|e]; [|reflexivity].
  destruct (get (fo_parents f) []); reflexivity.
Qed.

(** Unfold one resolver step everywhere and split on its tests. *)
Ltac step_resolver :=
  rewrite get_folder_path_S in *;
  repeat match goal with
  | H : context [match ?c !! ?k with _ => _ end] |- _ =>
      destruct (c !! k) eqn:?
  | |- context [match ?c !! ?k with _ => _ end] =>
      destruct (c !! k) eqn:?
  | H : context [match files_get ?svc ?k with _ => _ end] |- _ =>
      destruct (files_get svc k) eqn:?
  | |- context [match files_get ?svc ?k with _ => _ end] =>
      destruct (files_get svc k) eqn:?
  | H : context [match first_parent ?f with _ => _ end] |- _ =>
      destruct (first_parent f) eqn:?
  | |- context [match first_parent ?f with _ => _ end] =>
      destruct (first_parent f) eqn:?
  end.

Section Resolver.
Context (svc : service).

Lemma get_folder_path_fuel n m fid c r :
  get_folder_path svc n fid c = Some r -> n <= m ->
  get_folder_path svc m fid c = Some r.
Proof.
  revert m fid r.
  induction n as [|n IH]; intros m fid r Hr Hle; [discriminate|].
  destruct m as [|m]; [lia|].
  step_resolver; try assumption.
  destruct (get_folder_path svc n s c) as [[[pp c1] t]|] eqn:E;
    [|discriminate].
  rewrite (IH m _ _ E) by lia. exact Hr.
Qed.

Lemma get_folder_path_agree n m fid c r r' :
  get_folder_path svc n fid c = Some r ->
  get_folder_path svc m fid c = Some r' -> r = r'.
Proof.
  intros Hn Hm.
  apply (get_folder_path_fuel _ (n `max` m)) in Hn; [|lia].
  apply (get_folder_path_fuel _ (n `max` m)) in Hm; [|lia].
  congruence.
Qed.

Lemma settles_returns d fid c :
  settles svc d fid -> is_Some (get_folder_path svc (S d) fid c).
Proof.
  induction 1 as [d fid e He|d fid f Hf Hp|d fid f parent Hf Hp _ IH];
    rewrite get_folder_path_S;
    destruct (c !! fid); try (eexists; reflexivity);
    rewrite ?He, ?Hf, ?Hp; try (eexists; reflexivity).
  destruct IH as [[[pp c1] t] ->]. eexists; reflexivity.
Qed.

Lemma settles_weaken d d' fid :
  settles svc d fid -> d <= d' -> settles svc d' fid.
Proof.
  intros H; revert d'.
  induction H as [d fid e He|d fid f Hf Hp|d fid f parent Hf Hp _ IH];
    intros d' Hle.
  - eapply settles_fail; eassumption.
  - eapply settles_root; eassumption.
  - destruct d' as [|d']; [lia|].
    eapply settles_step; [eassumption..|]. apply IH. lia.
Qed.

Lemma chain_nonempty fid names : chain svc fid names -> names <> [].
Proof. destruct 1; [discriminate|]. by destruct names. Qed.

Lemma chain_settles fid names :
  chain svc fid names -> settles svc (List.length names - 1) fid.
Proof.
  induction 1 as [fid f Hf Hp|fid f parent names Hf Hp Hc IH].
  - eapply settles_root; eassumption.
  - apply chain_nonempty in Hc. rewrite length_app.
    destruct names as [|n names]; [done|].
    replace (List.length (n :: names) + List.length [get (fo_name f) ""] - 1)
      with (S (List.length (n :: names) - 1)) by (simpl; lia).
    eapply settles_step; eassumption.
Qed.

End Resolver.

(** ** The memo cache does not change results *)

Section Cache.
Context (svc : service).

Lemma path_of_fuel n m fid p :
  path_of svc n fid = Some p -> n <= m -> path_of svc m fid = Some p.
Proof.
  revert m fid p.
  induction n as [|n IH]; intros m fid p Hp Hle; [discriminate|].
  destruct m as [|m]; [lia|]. simpl in *.
  destruct (files_get svc fid) as [f|e]; [|assumption].
  destruct (first_parent f) as [parent|]; [|assumption].
  destruct (path_of svc n parent) as [pp|] eqn:E; [|discriminate].
  rewrite (IH m _ _ E) by lia. assumption.
Qed.

Lemma path_of_agree n m fid p p' :
  path_of svc n fid = Some p -> path_of svc m fid = Some p' -> p = p'.
Proof.
  intros Hn Hm.
  apply (path_of_fuel _ (n `max` m)) in Hn; [|lia].
  apply (path_of_fuel _ (n `max` m)) in Hm; [|lia].
  congruence.
Qed.

Lemma consistent_empty : consistent svc ∅.
Proof. intros k v H. by rewrite lookup_empty in H. Qed.

Lemma consistent_insert c k v n :
  consistent svc c -> path_of svc n k = Some v -> consistent svc (<[k := v]> c).
Proof.
  intros Hc Hk k' v' H.
  destruct (decide (k = k')) as [<-|Hne].
  - rewrite lookup_insert_eq in H. injection H as <-. eauto.
  - rewrite lookup_insert_ne in H by assumption. eauto.
Qed.

Lemma get_folder_path_path_of n fid c p c' t :
  consistent svc c ->
  get_folder_path svc n fid c = Some (p, c', t) ->
  (exists m, path_of svc m fid = Some p) /\ consistent svc c'.
Proof.
  revert fid p c' t.
  induction n as [|n IH]; intros fid p c' t Hc H; [discriminate|].
  step_resolver.
  - injection H as <- <- <-. split; [eauto|assumption].
  - destruct (get_folder_path svc n s c) as [[[pp c1] t1]|] eqn:E;
      [|discriminate].
    injection H as <- <- <-.
    destruct (IH _ _ _ _ Hc E) as [[m Hm] Hc1].
    assert (path_of svc (S m) fid
            = Some (join_parent pp (get (fo_name a) ""))) as Hfid.
    { simpl. by rewrite Heqo0, Heqo1, Hm. }
    split; [eauto|]. eapply consistent_insert; eassumption.
  - injection H as <- <- <-.
    assert (path_of svc 1 fid = Some (get (fo_name a) "")) as Hfid.
    { simpl. by rewrite Heqo0, Heqo1. }
    split; [eauto|]. eapply consistent_insert; eassumption.
  - injection H as <- <- <-. split; [|assumption].
    exists 1. simpl. by rewrite Heqo0.
Qed.

Lemma reachable_consistent c : reachable svc c -> consistent svc c.
Proof.
  induction 1 as [|c fuel fid p c' t _ IH H].
  - apply consistent_empty.
  - eapply get_folder_path_path_of; eassumption.
Qed.

(** A folder whose fetch fails never enters the cache. *)
Lemma get_folder_path_keys n fid c p c' t :
  (forall k, is_Some (c !! k) -> exists f, files_get svc k = Ret f) ->
  get_folder_path svc n fid c = Some (p, c', t) ->
  forall k, is_Some (c' !! k) -> exists f, files_get svc k = Ret f.
Proof.
  revert fid p c' t.
  induction n as [|n IH]; intros fid p c' t Hc H; [discriminate|].
  step_resolver.
  - by injection H as <- <- <-.
  - destruct (get_folder_path svc n s c) as [[[pp c1] t1]|] eqn:E;
      [|discriminate].
    injection H as <- <- <-. intros k Hk.
    destruct (decide (fid = k)) as [<-|Hne]; [eauto|].
    rewrite lookup_insert_ne in Hk by assumption.
    eapply IH; eassumption.
  - injection H as <- <- <-. intros k Hk.
    destruct (decide (fid = k)) as [<-|Hne]; [eauto|].
    rewrite lookup_insert_ne in Hk by assumption. auto.
  - by injection H as <- <- <-.
Qed.

Lemma reachable_keys c k :
  reachable svc c -> is_Some (c !! k) -> exists f, files_get svc k = Ret f.
Proof.
  intros H; revert k.
  induction H as [|c fuel fid p c' t _ IH H]; intros k Hk.
  - rewrite lookup_empty in Hk. by destruct Hk.
  - eapply get_folder_path_keys; eassumption.
Qed.

Lemma reachable_failed c fid e :
  reachable svc c -> files_get svc fid = Raise e -> c !! fid = None.
Proof.
  intros Hc He. destruct (c !! fid) eqn:E; [|reflexivity].
  destruct (reachable_keys c fid Hc) as [f Hf]; [by rewrite E|congruence].
Qed.

End Cache.

(** ** Joining names *)

Lemma string_app_nil_l (a : string) : "" +:+ a = a.
Proof. reflexivity. Qed.

Lemma string_app_cons x (a b : string) : String x a +:+ b = String x (a +:+ b).
Proof. reflexivity. Qed.

Lemma string_app_assoc (a b c : string) : (a +:+ b) +:+ c = a +:+ b +:+ c.
Proof.
  induction a as [|x a IH]; [reflexivity|].
  by rewrite !string_app_cons, IH.
Qed.

Lemma string_app_nil_r (a : string) : a +:+ "" = a.
Proof.
  induction a as [|x a IH]; [reflexivity|].
  by rewrite string_app_cons, IH.
Qed.

Lemma join_snoc sep (l : list string) x :
  l <> [] -> Py.join sep (l ++ [x]) = Py.join sep l +:+ sep +:+ x.
Proof.
  unfold Py.join.
  induction l as [|a l IH]; intros Hl; [done|].
  destruct l as [|b l]; [reflexivity|].
  change (a +:+ sep +:+ String.concat sep ((b :: l) ++ [x])
          = (a +:+ sep +:+ String.concat sep (b :: l)) +:+ sep +:+ x).
  rewrite IH by discriminate. by rewrite !string_app_assoc.
Qed.

Lemma join_truthy sep n (l : list string) :
  Py.truthy n = true -> Py.truthy (Py.join sep (n :: l)) = true.
Proof.
  intros Hn. unfold Py.join. destruct n as [|c n]; [discriminate|].
  destruct l; reflexivity.
Qed.

(** What line 97 computes, in terms of the whole chain. *)
Lemma join_parent_drop_empty names x :
  join_parent (Py.join "/" (drop_empty names)) x
  = Py.join "/" (drop_empty (names ++ [x])).
Proof.
  induction names as [|n names IH].
  - simpl. unfold join_parent. simpl. by destruct x.
  - simpl. destruct (Py.truthy n) eqn:Hn; [|exact IH].
    unfold join_parent. rewrite join_truthy by assumption.
    change (n :: names ++ [x]) with ((n :: names) ++ [x]).
    by rewrite join_snoc.
Qed.

Lemma chain_path_of svc fid names :
  chain svc fid names ->
  path_of svc (List.length names) fid
  = Some (Py.join "/" (drop_empty names)).
Proof.
  induction 1 as [fid f Hf Hp|fid f parent names Hf Hp Hc IH].
  - simpl. rewrite Hf, Hp. by destruct (get (fo_name f) "").
  - rewrite length_app, Nat.add_comm. simpl.
    rewrite Hf, Hp, IH. by rewrite join_parent_drop_empty.
Qed.

(** ** C3, C6, C7: what the resolver returns *)

(** C3 (as amended).  For a folder whose chain of first parents is
    finite and ends in a parentless folder, and for any cache a run can
    have built, the resolver returns the names of the chain, root first,
    after dropping the leading empty names, joined with "/"; this is the
    plain "/"-join of all the names when the root's name is not empty.  The
    chain Photos -> 2024 gives "Photos/2024". *)
Theorem get_folder_path_chain svc fid names c fuel :
  chain svc fid names ->
  reachable svc c ->
  List.length names <= fuel ->
  (exists c' t,
     get_folder_path svc fuel fid c
     = Some (Py.join "/" (drop_empty names), c', t))
  /\ (Py.truthy (hd "" names) = true ->
      Py.join "/" (drop_empty names) = Py.join "/" names)
  /\ Py.join "/" ["Photos"; "2024"] = "Photos/2024".
Proof.
  intros Hchain Hc Hfuel. split; [|split; [|reflexivity]].
  - pose proof (chain_nonempty _ _ _ Hchain) as Hne.
    destruct (settles_returns svc _ fid c (chain_settles _ _ _ Hchain))
      as [[[p c'] t] Hp].
    apply (get_folder_path_fuel _ _ fuel) in Hp;
      [|destruct names; [done|simpl in *; lia]].
    destruct (get_folder_path_path_of svc _ _ _ _ _ _
                (reachable_consistent _ _ Hc) Hp) as [[m Hm] _].
    rewrite (path_of_agree _ _ _ _ _ _ Hm (chain_path_of _ _ _ Hchain)) in Hp.
    eauto.
  - destruct names as [|n names]; [discriminate|].
    simpl. by intros ->.
Qed.

(** C7.  For a folder whose chain of first parents is finite and reaches
    a parentless folder, the recursion returns, whatever the cache: a fuel
    of the length of the chain is enough. *)
Theorem get_folder_path_terminates svc fid names c fuel :
  chain svc fid names ->
  List.length names <= fuel ->
  exists p c' t, get_folder_path svc fuel fid c = Some (p, c', t).
Proof.
  intros Hchain Hfuel.
  pose proof (chain_nonempty _ _ _ Hchain) as Hne.
  destruct (settles_returns svc _ fid c (chain_settles _ _ _ Hchain))
    as [[[p c'] t] Hp].
  exists p, c', t. eapply get_folder_path_fuel; [eassumption|].
  destruct names; [done|simpl in *; lia].
Qed.

(** C6.  For a fixed service, resolving a folder with a cache built by
    earlier resolutions and resolving it with an empty cache both return,
    and return the same path, whatever the fuel above the depth of the
    folder. *)
Theorem cache_transparent svc d fid c fuel1 fuel2 :
  settles svc d fid ->
  reachable svc c ->
  d < fuel1 -> d < fuel2 ->
  exists p c1 t1 c2 t2,
    get_folder_path svc fuel1 fid c = Some (p, c1, t1)
    /\ get_folder_path svc fuel2 fid ∅ = Some (p, c2, t2).
Proof.
  intros Hd Hc H1 H2.
  destruct (settles_returns svc _ fid c Hd) as [[[p c1] t1] Hp].
  destruct (settles_returns svc _ fid ∅ Hd) as [[[p' c2] t2] Hp'].
  apply (get_folder_path_fuel _ _ fuel1) in Hp; [|lia].
  apply (get_folder_path_fuel _ _ fuel2) in Hp'; [|lia].
  destruct (get_folder_path_path_of svc _ _ _ _ _ _
              (reachable_consistent _ _ Hc) Hp) as [[m Hm] _].
  destruct (get_folder_path_path_of svc _ _ _ _ _ _
              (consistent_empty svc) Hp') as [[m' Hm'] _].
  rewrite <- (path_of_agree _ _ _ _ _ _ Hm Hm') in Hp'.
  eauto 10.
Qed.

(** ** Fetches and the cache *)

Lemma fetch_count_app fid (t1 t2 : list event) :
  fetch_count fid (t1 ++ t2) = fetch_count fid t1 + fetch_count fid t2.
Proof.
  induction t1 as [|e t1 IH]; [reflexivity|].
  destruct e; simpl; try exact IH.
  destruct (String.eqb fileId fid); simpl; by rewrite IH.
Qed.

Lemma fetch_count_cons_get x fid t :
  fetch_count fid (EGet x :: t)
  = (if String.eqb x fid then 1 else 0) + fetch_count fid t.
Proof. simpl. by destruct (String.eqb x fid). Qed.

Section Fetches.
Context (svc : service).

(** Only folders absent from the cache are fetched. *)
Lemma fetched_not_cached n fid c p c' t x :
  get_folder_path svc n fid c = Some (p, c', t) ->
  0 < fetch_count x t -> c !! x = None.
Proof.
  revert fid p c' t.
  induction n as [|n IH]; intros fid p c' t H Hx; [discriminate|].
  step_resolver.
  - injection H as <- <- <-. simpl in Hx. lia.
  - destruct (get_folder_path svc n s c) as [[[pp c1] t1]|] eqn:E;
      [|discriminate].
    injection H as <- <- <-. rewrite fetch_count_cons_get in Hx.
    destruct (String.eqb_spec fid x) as [<-|Hne]; [assumption|].
    eapply IH; [eassumption|]. simpl in Hx. lia.
  - injection H as <- <- <-. rewrite fetch_count_cons_get in Hx.
    destruct (String.eqb_spec fid x) as [<-|Hne]; [assumption|].
    simpl in Hx. lia.
  - injection H as <- <- <-. rewrite fetch_count_cons_get in Hx.
    destruct (String.eqb_spec fid x) as [<-|Hne]; [assumption|].
    simpl in Hx. lia.
Qed.

(** The cache only grows. *)
Lemma cache_grows n fid c p c' t k :
  get_folder_path svc n fid c = Some (p, c', t) ->
  is_Some (c !! k) -> is_Some (c' !! k).
Proof.
  revert fid p c' t.
  induction n as [|n IH]; intros fid p c' t H Hk; [discriminate|].
  step_resolver.
  - by injection H as <- <- <-.
  - destruct (get_folder_path svc n s c) as [[[pp c1] t1]|] eqn:E;
      [|discriminate].
    injection H as <- <- <-.
    destruct (decide (fid = k)) as [<-|Hne];
      [by rewrite lookup_insert_eq|].
    rewrite lookup_insert_ne by assumption. eapply IH; eassumption.
  - injection H as <- <- <-.
    destruct (decide (fid = k)) as [<-|Hne];
      [by rewrite lookup_insert_eq|].
    by rewrite lookup_insert_ne.
  - by injection H as <- <- <-.
Qed.

(** A folder fetched successfully is in the cache when the call returns. *)
Lemma fetched_then_cached n fid c p c' t x f :
  get_folder_path svc n fid c = Some (p, c', t) ->
  0 < fetch_count x t -> files_get svc x = Ret f -> is_Some (c' !! x).
Proof.
  revert fid p c' t.
  induction n as [|n IH]; intros fid p c' t H Hx Hf; [discriminate|].
  step_resolver.
  - injection H as <- <- <-. simpl in Hx. lia.
  - destruct (get_folder_path svc n s c) as [[[pp c1] t1]|] eqn:E;
      [|discriminate].
    injection H as <- <- <-. rewrite fetch_count_cons_get in Hx.
    destruct (String.eqb_spec fid x) as [<-|Hne];
      [by rewrite lookup_insert_eq|].
    rewrite lookup_insert_ne by assumption.
    eapply IH; [eassumption| |eassumption]. simpl in Hx. lia.
  - injection H as <- <- <-. rewrite fetch_count_cons_get in Hx.
    destruct (String.eqb_spec fid x) as [<-|Hne];
      [by rewrite lookup_insert_eq|].
    simpl in Hx. lia.
  - injection H as <- <- <-. rewrite fetch_count_cons_get in Hx.
    destruct (String.eqb_spec fid x) as [<-|Hne]; [congruence|].
    simpl in Hx. lia.
Qed.

(** A folder fetched during a call was itself resolved, against the same
    cache, by a call nested in it. *)
Lemma fetched_nested n fid c p c' t x :
  get_folder_path svc n fid c = Some (p, c', t) ->
  0 < fetch_count x t ->
  exists m p1 c1 t1,
    get_folder_path svc m x c = Some (p1, c1, t1)
    /\ List.length t1 <= List.length t.
Proof.
  revert fid p c' t.
  induction n as [|n IH]; intros fid p c' t H Hx; [discriminate|].
  destruct (String.eqb_spec fid x) as [<-|Hne]; [eauto 10|].
  step_resolver.
  - injection H as <- <- <-. simpl in Hx. lia.
  - destruct (get_folder_path svc n s c) as [[[pp c1] t1]|] eqn:E;
      [|discriminate].
    injection H as <- <- <-. rewrite fetch_count_cons_get in Hx.
    destruct (String.eqb_spec fid x) as [->|_]; [done|].
    destruct (IH _ _ _ _ E) as (m & p2 & c2 & t2 & H2 & Hlen);
      [simpl in Hx; lia|].
    exists m, p2, c2, t2. split; [assumption|]. simpl. lia.
  - injection H as <- <- <-. rewrite fetch_count_cons_get in Hx.
    destruct (String.eqb_spec fid x) as [->|_]; [done|].
    simpl in Hx. lia.
  - injection H as <- <- <-. rewrite fetch_count_cons_get in Hx.
    destruct (String.eqb_spec fid x) as [->|_]; [done|].
    simpl in Hx. lia.
Qed.

(** One call fetches a folder at most once. *)
Lemma fetched_once n fid c p c' t x :
  get_folder_path svc n fid c = Some (p, c', t) -> fetch_count x t <= 1.
Proof.
  revert fid p c' t.
  induction n as [|n IH]; intros fid p c' t H; [discriminate|].
  step_resolver.
  - injection H as <- <- <-. simpl. lia.
  - destruct (get_folder_path svc n s c) as [[[pp c1] t1]|] eqn:E;
      [|discriminate].
    injection H as <- <- <-. rewrite fetch_count_cons_get.
    pose proof (IH _ _ _ _ E) as Hle.
    destruct (String.eqb_spec fid x) as [<-|Hne]; [|lia].
    destruct (Nat.eq_dec (fetch_count fid t1) 0) as [->|Hpos]; [lia|].
    destruct (fetched_nested _ _ _ _ _ _ fid E)
      as (m & p2 & c2 & t2 & H2 & Hlen); [lia|].
    assert (get_folder_path svc (S n) fid c
            = Some (join_parent pp (get (fo_name a) ""),
                    <[fid := join_parent pp (get (fo_name a) "")]> c1,
                    EGet fid :: t1)) as Hcall.
    { by rewrite get_folder_path_S, Heqo, Heqo0, Heqo1, E. }
    pose proof (get_folder_path_agree _ _ _ _ _ _ _ Hcall H2) as Heq.
    injection Heq as _ _ <-. simpl in Hlen. lia.
  - injection H as <- <- <-. rewrite fetch_count_cons_get. simpl.
    destruct (String.eqb fid x); lia.
  - injection H as <- <- <-. rewrite fetch_count_cons_get. simpl.
    destruct (String.eqb fid x); lia.
Qed.

End Fetches.

(** ** The monad of the driver *)

Lemma bind_eq {A B} (m : M A) (f : A -> M B) w :
  (m ≫= f) w
  = match m w with
    | None => None
    | Some (Raise e, w') => Some (Raise e, w')
    | Some (Ret a, w') => f a w'
    end.
Proof. reflexivity. Qed.

Lemma reachable_resolve_all svc fuel fids c :
  reachable svc c -> reachable svc (resolve_all svc fuel fids c).
Proof.
  revert c. induction fids as [|fid fids IH]; intros c Hc; [exact Hc|].
  simpl. apply IH.
  destruct (get_folder_path svc fuel fid c) as [[[p c'] t]|] eqn:E;
    [|exact Hc].
  eapply reach_call; eassumption.
Qed.

(** ** C1: a folder whose metadata cannot be fetched *)

Section Degraded.
Context (svc : service) (fid e : string).
Hypothesis fetch_fails : files_get svc fid = Raise e.

Lemma get_folder_path_failed n c :
  reachable svc c ->
  get_folder_path svc (S n) fid c
  = Some ("Unknown", c, [EGet fid; folder_error fid e]).
Proof.
  intros Hc. rewrite get_folder_path_S.
  by rewrite (reachable_failed _ _ _ _ Hc fetch_fails), fetch_fails.
Qed.

Lemma image_full_path_failed n c img :
  reachable svc c ->
  head (img_parents img) = Some fid ->
  image_full_path svc (S n) img c
  = Some ("Unknown/" +:+ img_name img, c, [EGet fid; folder_error fid e]).
Proof.
  intros Hc Hp. unfold image_full_path.
  destruct (img_parents img) as [|p ps]; [discriminate|].
  injection Hp as ->. by rewrite get_folder_path_failed.
Qed.

Lemma write_images_continues d out incl images :
  Forall (fun img => forall p, head (img_parents img) = Some p ->
                                settles svc d p) images ->
  forall c w,
    reachable svc c ->
    exists c' w' lines,
      write_images svc (S d) out incl images c w = Some (Ret c', w')
      /\ get (w_files w' !! out) "" = get (w_files w !! out) "" +:+ cat lines
      /\ Forall2 (degraded_line fid incl) images lines.
Proof.
  induction 1 as [|img images Himg _ IH]; intros c w Hc.
  - exists c, w, []. split; [reflexivity|]. split; [|constructor].
    simpl. by rewrite string_app_nil_r.
  - assert (exists full_path c1 t,
              image_full_path svc (S d) img c = Some (full_path, c1, t)
              /\ reachable svc c1
              /\ (head (img_parents img) = Some fid ->
                  full_path = "Unknown/" +:+ img_name img))
      as (full_path & c1 & t & Hfull & Hc1 & Hunk).
    { destruct (img_parents img) as [|p ps] eqn:Hps.
      - exists (img_name img), c, []. unfold image_full_path.
        rewrite Hps. by repeat split.
      - destruct (settles_returns svc d p c (Himg p eq_refl))
          as [[[pp c1] t] Hpp].
        exists (pp +:+ "/" +:+ img_name img), c1, t.
        unfold image_full_path. rewrite Hps, Hpp.
        split; [reflexivity|]. split; [eapply reach_call; eassumption|].
        intros [= ->]. rewrite get_folder_path_failed in Hpp by assumption.
        by injection Hpp as <- _ _. }
    simpl. rewrite Hfull. rewrite !bind_eq. simpl.
    edestruct (IH c1) as (c' & w' & lines & Hrun & Hfiles & Hlines);
      [exact Hc1|].
    exists c', w', (report_line incl full_path img :: lines).
    split; [exact Hrun|]. split.
    + rewrite Hfiles. simpl. rewrite lookup_insert_eq. simpl.
      by rewrite string_app_assoc.
    + constructor; [|exact Hlines]. by exists full_path.
Qed.

Lemma save_image_paths_continues d out incl images w :
  Forall (fun img => forall p, head (img_parents img) = Some p ->
                                settles svc d p) images ->
  w_denied w !! out = None ->
  exists w' lines,
    save_image_paths images svc (S d) out incl w = Some (Ret tt, w')
    /\ w_files w' !! out
       = Some (report_header (List.length images) +:+ cat lines)
    /\ Forall2 (degraded_line fid incl) images lines.
Proof.
  intros Himgs Hout. unfold save_image_paths.
  rewrite bind_eq. unfold open_w at 1. rewrite Hout.
  rewrite bind_eq. unfold write at 1.
  rewrite bind_eq.
  match goal with
  | |- context [write_images svc (S d) out incl images ∅ ?w0] =>
      destruct (write_images_continues d out incl images Himgs ∅ w0
                  (reach_empty svc))
        as (c' & w1 & lines & Hrun & Hfiles & Hlines)
  end.
  rewrite Hrun. simpl in Hfiles. rewrite lookup_insert_eq in Hfiles.
  simpl in Hfiles. rewrite lookup_insert_eq in Hfiles. simpl in Hfiles.
  eexists _, lines. split; [reflexivity|]. split; [|exact Hlines].
  simpl. destruct (w_files w1 !! out) as [content|] eqn:E.
  - simpl in Hfiles. by rewrite Hfiles.
  - simpl in Hfiles. exfalso. revert Hfiles.
    unfold report_header. by rewrite !string_app_cons.
Qed.

End Degraded.

(** C1 (as amended).  When the metadata fetch of a folder raises, the
    resolver returns "Unknown" for it and raises nothing; an image whose
    first parent is that folder gets the full path "Unknown/" followed by
    its name; and the report is written to its end, one line per image. *)
Theorem unknown_folder_degrades svc fid e :
  files_get svc fid = Raise e ->
  (forall n c, reachable svc c ->
     get_folder_path svc (S n) fid c
     = Some ("Unknown", c, [EGet fid; folder_error fid e]))
  /\ (forall n c img, reachable svc c ->
        head (img_parents img) = Some fid ->
        image_full_path svc (S n) img c
        = Some ("Unknown/" +:+ img_name img, c,
                [EGet fid; folder_error fid e]))
  /\ (forall d images out incl w,
        Forall (fun img => forall p, head (img_parents img) = Some p ->
                                      settles svc d p) images ->
        w_denied w !! out = None ->
        exists w' lines,
          save_image_paths images svc (S d) out incl w = Some (Ret tt, w')
          /\ w_files w' !! out
             = Some (report_header (List.length images) +:+ cat lines)
          /\ Forall2 (degraded_line fid incl) images lines).
Proof.
  intros He. split; [|split].
  - intros n c Hc. by apply get_folder_path_failed.
  - intros n c img Hc Hp. by apply image_full_path_failed.
  - intros d images out incl w Himgs Hout.
    by apply save_image_paths_continues with (e := e).
Qed.

Lemma unknown_folder_degrades_witness :
  files_get Demo.svc "bad" = Raise "HttpError 404"
  /\ get_folder_path Demo.svc 1 "bad" ∅
     = Some ("Unknown", ∅,
             [EGet "bad"; folder_error "bad" "HttpError 404"]).
Proof.
  split; [reflexivity|].
  destruct (unknown_folder_degrades Demo.svc "bad" "HttpError 404" eq_refl)
    as [H _].
  exact (H 0 ∅ (reach_empty _)).
Defined.

(** C1 as stated fails: the image's full path in the report is not
    "Unknown" but "Unknown/" followed by the image's name. *)
Lemma unknown_full_path_counterexample :
  files_get Demo.svc "bad" = Raise "HttpError 404"
  /\ match image_full_path Demo.svc 5 Demo.image5 ∅ with
     | Some (full_path, _, _) =>
         full_path = "Unknown/x.png" /\ full_path <> "Unknown"
     | None => False
     end
  /\ match save_image_paths [Demo.image5] Demo.svc 5 "out.txt" false
             (Demo.world_of []) with
     | Some (Ret _, w') =>
         w_files w' !! "out.txt"
         = Some (report_header 1 +:+ "Unknown/x.png" +:+ Json.newline)
     | _ => False
     end.
Proof.
  split; [reflexivity|]. split.
  - vm_compute. split; [reflexivity|discriminate].
  - vm_compute. reflexivity.
Qed.

(** ** C5: memoisation *)

Lemma image_full_path_inv svc n img c p c' t :
  image_full_path svc n img c = Some (p, c', t) ->
  (c' = c /\ t = [])
  \/ exists parent pp, get_folder_path svc n parent c = Some (pp, c', t).
Proof.
  unfold image_full_path. destruct (img_parents img) as [|parent rest].
  - intros [= _ <- <-]. by left.
  - destruct (get_folder_path svc n parent c) as [[[pp c1] t1]|] eqn:E;
      [|discriminate].
    intros [= _ <- <-]. right. eauto.
Qed.

(** C5 (as amended).  Within one cache, resolving the paths of two files
    one after the other fetches the metadata of a folder whose fetch
    succeeds at most once in all: when the first resolution fetched it, it
    is in the cache afterwards and the second resolution does not fetch
    it. *)
Theorem shared_ancestor_fetched_once
    svc n1 n2 img1 img2 c0 p1 c1 t1 p2 c2 t2 x f :
  image_full_path svc n1 img1 c0 = Some (p1, c1, t1) ->
  image_full_path svc n2 img2 c1 = Some (p2, c2, t2) ->
  files_get svc x = Ret f ->
  fetch_count x (t1 ++ t2) <= 1
  /\ (0 < fetch_count x t1 -> is_Some (c1 !! x) /\ fetch_count x t2 = 0).
Proof.
  intros H1 H2 Hf.
  assert (fetch_count x t1 <= 1) as Hle1.
  { destruct (image_full_path_inv _ _ _ _ _ _ _ H1) as [[_ ->]|(q & pp & Hq)];
      [simpl; lia|]. eapply fetched_once; eassumption. }
  assert (fetch_count x t2 <= 1) as Hle2.
  { destruct (image_full_path_inv _ _ _ _ _ _ _ H2) as [[_ ->]|(q & pp & Hq)];
      [simpl; lia|]. eapply fetched_once; eassumption. }
  assert (0 < fetch_count x t1 -> is_Some (c1 !! x) /\ fetch_count x t2 = 0)
    as Hsecond.
  { intros Hpos.
    assert (is_Some (c1 !! x)) as Hin.
    { destruct (image_full_path_inv _ _ _ _ _ _ _ H1)
        as [[_ ->]|(q & pp & Hq)]; [simpl in Hpos; lia|].
      eapply fetched_then_cached; eassumption. }
    split; [exact Hin|].
    destruct (image_full_path_inv _ _ _ _ _ _ _ H2)
      as [[_ ->]|(q & pp & Hq)]; [reflexivity|].
    destruct (Nat.eq_dec (fetch_count x t2) 0) as [|Hne]; [assumption|].
    assert (c1 !! x = None) as Hnone
      by (eapply fetched_not_cached; [eassumption|lia]).
    rewrite Hnone in Hin. by destruct Hin. }
  split; [|exact Hsecond].
  rewrite fetch_count_app.
  destruct (Nat.eq_dec (fetch_count x t1) 0) as [->|Hne]; [lia|].
  destruct Hsecond as [_ ->]; lia.
Qed.

Lemma shared_ancestor_fetched_once_witness :
  image_full_path Demo.svc 5 Demo.image1 ∅
  = Some ("Photos/2024/IMG.JPG",
          <["f2" := "Photos/2024"]> (<["f1" := "Photos"]> ∅),
          [EGet "f2"; EGet "f1"])
  /\ fetch_count "f1" ([EGet "f2"; EGet "f1"] ++ []) <= 1.
Proof.
  assert (image_full_path Demo.svc 5 Demo.image1 ∅
          = Some ("Photos/2024/IMG.JPG",
                  <["f2" := "Photos/2024"]> (<["f1" := "Photos"]> ∅),
                  [EGet "f2"; EGet "f1"])) as E1
    by (vm_compute; reflexivity).
  assert (image_full_path Demo.svc 5 Demo.image6
            (<["f2" := "Photos/2024"]> (<["f1" := "Photos"]> ∅))
          = Some ("Photos/top.png",
                  <["f2" := "Photos/2024"]> (<["f1" := "Photos"]> ∅), []))
    as E2 by (vm_compute; reflexivity).
  split; [exact E1|].
  exact (proj1 (shared_ancestor_fetched_once Demo.svc 5 5 Demo.image1
                  Demo.image6 ∅ _ _ _ _ _ _ "f1"
                  (Folder (Some "Photos") None) E1 E2 eq_refl)).
Defined.

(** C5 as stated fails for a common ancestor whose fetch fails: [bad] is
    the parent of the folders of both images, nothing is cached for it, and
    its metadata is requested by both resolutions. *)
Lemma shared_ancestor_counterexample :
  first_parent (Folder (Some "child") (Some ["bad"])) = Some "bad"
  /\ files_get Demo.svc "c" = Ret (Folder (Some "child") (Some ["bad"]))
  /\ files_get Demo.svc "c2" = Ret (Folder (Some "child2") (Some ["bad"]))
  /\ match image_full_path Demo.svc 5 Demo.image3 ∅ with
     | Some (_, c1, t1) =>
         match image_full_path Demo.svc 5 Demo.image4 c1 with
         | Some (_, _, t2) =>
             fetch_count "bad" t1 = 1 /\ fetch_count "bad" t2 = 1
             /\ ~ fetch_count "bad" (t1 ++ t2) <= 1
         | None => False
         end
     | None => False
     end.
Proof.
  split; [reflexivity|]. split; [reflexivity|]. split; [reflexivity|].
  vm_compute. split; [reflexivity|]. split; [reflexivity|]. lia.
Qed.

(** ** C10: failures and the cache *)

Lemma path_of_empty_cache svc n k v :
  path_of svc n k = Some v ->
  exists c' t, get_folder_path svc n k ∅ = Some (v, c', t).
Proof.
  revert k v. induction n as [|n IH]; intros k v H; [discriminate|].
  rewrite get_folder_path_S, lookup_empty. simpl in H.
  destruct (files_get svc k) as [f|e]; [|injection H as <-; eauto].
  destruct (first_parent f) as [parent|]; [|injection H as <-; eauto].
  destruct (path_of svc n parent) as [pp|] eqn:E; [|discriminate].
  injection H as <-. destruct (IH _ _ E) as (c' & t & ->). eauto.
Qed.

(** C10 (as amended).  In any cache a run can have built, a folder whose
    metadata fetch fails is absent; resolving it fetches again, returns
    "Unknown" and leaves the cache as it was.  Every entry of the cache
    belongs to a folder whose own fetch succeeds, and holds the path the
    resolver returns for that folder from an empty cache. *)
Theorem failed_fetch_leaves_cache svc c fid e :
  reachable svc c ->
  files_get svc fid = Raise e ->
  c !! fid = None
  /\ (forall n, get_folder_path svc (S n) fid c
                = Some ("Unknown", c, [EGet fid; folder_error fid e]))
  /\ (forall k v, c !! k = Some v ->
        (exists f, files_get svc k = Ret f)
        /\ exists m c' t, get_folder_path svc m k ∅ = Some (v, c', t)).
Proof.
  intros Hc He. split; [|split].
  - eapply reachable_failed; eassumption.
  - intros n. by apply get_folder_path_failed.
  - intros k v Hk. split.
    + apply (reachable_keys svc c k Hc). by rewrite Hk.
    + destruct (reachable_consistent svc c Hc k v Hk) as [m Hm].
      destruct (path_of_empty_cache _ _ _ _ Hm) as (c' & t & H). eauto.
Qed.

Lemma failed_fetch_leaves_cache_witness :
  resolve_all Demo.svc 5 ["c"; "f2"] ∅ !! "bad" = None.
Proof.
  exact (proj1 (failed_fetch_leaves_cache Demo.svc
                  (resolve_all Demo.svc 5 ["c"; "f2"] ∅) "bad"
                  "HttpError 404"
                  (reachable_resolve_all Demo.svc 5 ["c"; "f2"] ∅
                     (reach_empty Demo.svc))
                  eq_refl)).
Defined.

Lemma no_chain_through_bad names : ~ chain Demo.svc "c" names.
Proof.
  intros H. inversion H as [fid f Hf Hp|fid f parent names' Hf Hp Hc];
    subst; vm_compute in Hf; injection Hf as <-; vm_compute in Hp;
    [discriminate|].
  injection Hp as <-.
  inversion Hc as [fid f Hf Hp|fid f parent names'' Hf Hp Hc'];
    subst; vm_compute in Hf; discriminate.
Qed.

(** C10 as stated fails: after resolving [c], whose parent cannot be
    fetched, and [u], a folder named "Unknown", the cache maps [c] to
    "Unknown/child" although the chain of [c] was never resolved, and holds
    the value "Unknown". *)
Lemma degraded_entry_counterexample :
  reachable Demo.svc (resolve_all Demo.svc 5 ["c"; "u"] ∅)
  /\ resolve_all Demo.svc 5 ["c"; "u"] ∅ !! "c" = Some "Unknown/child"
  /\ (forall names, ~ chain Demo.svc "c" names)
  /\ resolve_all Demo.svc 5 ["c"; "u"] ∅ !! "u" = Some "Unknown".
Proof.
  split; [apply reachable_resolve_all, reach_empty|].
  split; [vm_compute; reflexivity|].
  split; [exact no_chain_through_bad|].
  vm_compute; reflexivity.
Qed.

(** ** Examples for C3, C6 and C7 *)

Lemma chain_f2 : chain Demo.svc "f2" ["Photos"; "2024"].
Proof.
  apply (chain_step Demo.svc "f2" (Folder (Some "2024") (Some ["f1"])) "f1"
           ["Photos"]); [reflexivity..|].
  apply (chain_root Demo.svc "f1" (Folder (Some "Photos") None));
    reflexivity.
Qed.

Lemma chain_e1 : chain Demo.svc "e1" [""; "2024"].
Proof.
  apply (chain_step Demo.svc "e1" (Folder (Some "2024") (Some ["e"])) "e"
           [""]); [reflexivity..|].
  apply (chain_root Demo.svc "e" (Folder None (Some []))); reflexivity.
Qed.

Lemma get_folder_path_chain_witness :
  exists c' t,
    get_folder_path Demo.svc 2 "f2" ∅ = Some ("Photos/2024", c', t).
Proof.
  exact (proj1 (get_folder_path_chain Demo.svc "f2" ["Photos"; "2024"] ∅ 2
                  chain_f2 (reach_empty Demo.svc) (le_n 2))).
Defined.

(** C3 as stated fails when the root's name is empty (here the metadata
    of the root has no name, which line 92 reads as the empty string): the
    names "" and "2024" joined with "/" give "/2024", and the resolver
    returns "2024". *)
Lemma empty_root_counterexample :
  chain Demo.svc "e1" [""; "2024"]
  /\ match get_folder_path Demo.svc 5 "e1" ∅ with
     | Some (p, _, _) => p = "2024" /\ p <> Py.join "/" [""; "2024"]
     | None => False
     end.
Proof.
  split; [exact chain_e1|]. vm_compute. split; [reflexivity|discriminate].
Qed.

Lemma get_folder_path_terminates_witness :
  exists p c' t, get_folder_path Demo.svc 2 "f2" ∅ = Some (p, c', t).
Proof.
  exact (get_folder_path_terminates Demo.svc "f2" ["Photos"; "2024"] ∅ 2
           chain_f2 (le_n 2)).
Defined.

Lemma settles_c : settles Demo.svc 1 "c".
Proof.
  apply (settles_step Demo.svc 0 "c" (Folder (Some "child") (Some ["bad"]))
           "bad"); [reflexivity..|].
  apply (settles_fail Demo.svc 0 "bad" "HttpError 404"). reflexivity.
Qed.

Lemma cache_transparent_witness :
  exists p c1 t1 c2 t2,
    get_folder_path Demo.svc 2 "c" (resolve_all Demo.svc 5 ["c2"; "c"; "f2"] ∅)
    = Some (p, c1, t1)
    /\ get_folder_path Demo.svc 3 "c" ∅ = Some (p, c2, t2).
Proof.
  exact (cache_transparent Demo.svc 1 "c"
           (resolve_all Demo.svc 5 ["c2"; "c"; "f2"] ∅) 2 3 settles_c
           (reachable_resolve_all Demo.svc 5 ["c2"; "c"; "f2"] ∅
              (reach_empty Demo.svc))
           (le_n 2) (le_S 2 2 (le_n 2))).
Defined.

(** ** The driver *)

Lemma same_but_token_refl w : same_but_token w w.
Proof. by repeat split. Qed.

Lemma same_but_token_trans w w1 w2 :
  same_but_token w w1 -> same_but_token w1 w2 -> same_but_token w w2.
Proof.
  intros (Hs & Hd & Ht & Hf) (Hs' & Hd' & Ht' & Hf').
  repeat split; try congruence.
  intros path Hpath. rewrite Hf', Hf by assumption. reflexivity.
Qed.

Lemma token_only_ret {A} (a : A) : token_only (mret a).
Proof. intros w r w1 [= <- <-]. apply same_but_token_refl. Qed.

Lemma token_only_of_outcome {A} (o : outcome A) : token_only (of_outcome o).
Proof. intros w r w1 [= <- <-]. apply same_but_token_refl. Qed.

Lemma token_only_bind {A B} (m : M A) (f : A -> M B) :
  token_only m -> (forall a, token_only (f a)) -> token_only (m ≫= f).
Proof.
  intros Hm Hf w r w2. rewrite bind_eq.
  destruct (m w) as [[[a|e] w1]|] eqn:E; [|intros [= <- <-]|discriminate].
  - intros H. eapply same_but_token_trans; [eapply Hm|eapply Hf]; eassumption.
  - eapply Hm; eassumption.
Qed.

Lemma token_only_save_token c : token_only (save_token c).
Proof.
  intros w r w1. unfold save_token, open_w, write. rewrite bind_eq.
  destruct (w_denied w !! "token.json"); intros [= <- <-];
    repeat split; simpl; try reflexivity.
  intros path Hpath. by rewrite !lookup_insert_ne.
Qed.

(** The authenticator reads no input, prints nothing, and writes no file
    but [token.json]. *)
Lemma authenticate_gdrive_frame lib : token_only (authenticate_gdrive lib).
Proof.
  unfold authenticate_gdrive.
  intros w r w1. unfold read_files at 1. rewrite bind_eq. revert w1.
  generalize (w_files w). intros files. revert r. revert w.
  change (token_only
    (stored ← match files !! "token.json" with
              | Some text =>
                  c ← of_outcome (from_authorized_user_file lib text);
                  mret (Some c)
              | None => mret None
              end;
     c ← match stored with
         | Some c =>
             if cr_valid c then mret c
             else if cr_expired c && Py.truthy_opt (cr_refresh_token c) then
               c' ← of_outcome (refresh lib c); save_token c';; mret c'
             else
               c' ← of_outcome
                      (run_local_server lib (files !! "credentials.json"));
               save_token c';; mret c'
         | None =>
             c' ← of_outcome
                    (run_local_server lib (files !! "credentials.json"));
             save_token c';; mret c'
         end;
     of_outcome (build lib c))).
  repeat first
    [ apply token_only_ret
    | apply token_only_of_outcome
    | apply token_only_save_token
    | apply token_only_bind
    | match goal with
      | |- token_only (match ?x with _ => _ end) => destruct x
      | |- forall _, _ => intro
      end ].
Qed.

(** C8.  When authentication succeeds and the listing returns no image,
    [main] returns normally after printing "No image files found."; it
    prints no error, and it leaves every file other than the token file of
    the authenticator as it was: neither the report nor the JSON file is
    written. *)
Theorem no_images_no_output lib fuel w svc w1 line rest t :
  (print "Authenticating with Google Drive...";; authenticate_gdrive lib) w
  = Some (Ret svc, w1) ->
  w_stdin w = line :: rest ->
  get_image_files svc fuel (folder_scope line) = Some (Ret [], t) ->
  exists w',
    main lib fuel w = Some w'
    /\ w_trace w'
       = w_trace w
         ++ [EPrint "Authenticating with Google Drive...";
             EInput "Enter folder ID (press Enter for entire Drive): ";
             EPrint "Searching for image files..."]
         ++ t ++ [EPrint "No image files found."]
    /\ (forall path, path <> "token.json" ->
                     w_files w' !! path = w_files w !! path).
Proof.
  intros Hauth Hin Hlist.
  rewrite bind_eq in Hauth. unfold print, emit in Hauth. simpl in Hauth.
  destruct (authenticate_gdrive_frame lib _ _ _ Hauth)
    as (Hstdin & _ & Htrace & Hfiles).
  simpl in Hstdin, Htrace, Hfiles.
  unfold main, main_body. rewrite bind_eq. unfold print at 1, emit at 1.
  simpl. rewrite bind_eq, Hauth.
  rewrite bind_eq. unfold input at 1. rewrite Hstdin, Hin.
  rewrite bind_eq. unfold print at 1, emit at 1. simpl.
  rewrite bind_eq. unfold run_listing at 1. rewrite Hlist.
  simpl. eexists. split; [reflexivity|]. simpl. split.
  - rewrite Htrace. by rewrite <- !app_assoc.
  - exact Hfiles.
Qed.

Lemma no_images_no_output_witness :
  exists w',
    main (Demo.lib Demo.empty_svc) 3 (Demo.world_of [""]) = Some w'
    /\ w_trace w'
       = [EPrint "Authenticating with Google Drive...";
          EInput "Enter folder ID (press Enter for entire Drive): ";
          EPrint "Searching for image files..."]
         ++ [EList "trashed=false" None]
         ++ [EPrint "No image files found."]
    /\ (forall path, path <> "token.json" ->
                     w_files w' !! path = (∅ : gmap string string) !! path).
Proof.
  exact (no_images_no_output (Demo.lib Demo.empty_svc) 3
           (Demo.world_of [""]) Demo.empty_svc
           (World [""] (<["token.json" := "{}"]> (<["token.json" := ""]> ∅))
                  ∅ [EPrint "Authenticating with Google Drive..."])
           "" [] [EList "trashed=false" None]
           eq_refl eq_refl eq_refl).
Defined.

(** ** C2: the name of the JSON file *)

Lemma replace_absent old new s :
  old <> "" -> occurs old s = false -> Py.replace old new s = s.
Proof.
  intros Hold. unfold Py.replace.
  induction s as [|c s IH]; intros H.
  - simpl. by destruct old.
  - change (String.prefix old (String c s) || occurs old s = false) in H.
    apply orb_false_elim in H as [Hprefix Hrest].
    change (Py.replace_from old new (String c s) 0)
      with (if String.prefix old (String c s) then
              match old with
              | EmptyString => new +:+ String c (Py.replace_from old new s 0)
              | String _ old' =>
                  new +:+ Py.replace_from old new s (String.length old')
              end
            else String c (Py.replace_from old new s 0)).
    by rewrite Hprefix, IH.
Qed.

(** Every output name without ".txt" in it is also the name of the JSON
    file. *)
Lemma json_file_of_absent output_file :
  occurs ".txt" output_file = false -> json_file_of output_file = output_file.
Proof. apply replace_absent. discriminate. Qed.

(** C2 fails on the code.  With the output name "report", which has no
    ".txt" in it, line 165 computes the same name for the JSON file; the
    run announces the report and then the JSON dump overwrites it, so that
    only one output file exists and it holds the JSON text.  With the
    default name the two files are distinct. *)
Lemma json_file_overwrites_report :
  json_file_of "report" = "report"
  /\ json_file_of "image_paths.txt" = "image_paths.json"
  /\ match main (Demo.lib Demo.svc) 5 (Demo.world_of [""; "report"; "n"]) with
     | Some w' =>
         w_files w' !! "report"
         = Some (Json.dumps
                   (images_to_json [Demo.image1; Demo.image3; Demo.image4]))
         /\ dom (w_files w') = {["report"; "token.json"]}
         /\ last (w_trace w') = Some (EPrint "Also saved JSON data to report")
         /\ EPrint "Image paths saved to report" ∈ w_trace w'
     | None => False
     end.
Proof.
  split; [reflexivity|]. split; [reflexivity|].
  vm_compute. split; [reflexivity|]. split; [reflexivity|].
  split; [reflexivity|]. apply list_elem_of_In. simpl. tauto.
Qed.

(** ** C4: the file lister *)

Lemma collect_images_spec files acc images :
  collect_images files acc = Ret images ->
  exists new,
    images = acc ++ new
    /\ Forall2 (fun file img => to_image file = Some img)
               (List.filter is_image_file files) new.
Proof.
  revert acc. induction files as [|file files IH]; intros acc H.
  - injection H as <-. exists []. split; [by rewrite app_nil_r|constructor].
  - simpl in H. simpl. destruct (is_image_file file); [|by apply IH].
    destruct (to_image file) as [img|] eqn:E; [|discriminate].
    destruct (IH _ H) as (new & -> & Hnew).
    exists (img :: new). split; [by rewrite <- app_assoc|].
    by constructor.
Qed.

Lemma list_loop_spec svc q fuel tok acc images t :
  list_loop svc q fuel tok acc = Some (Ret images, t) ->
  exists files new,
    listed_files svc q fuel tok = Some files
    /\ images = acc ++ new
    /\ Forall2 (fun file img => to_image file = Some img)
               (List.filter is_image_file files) new
    /\ Forall (fun e => exists tok', e = EList q tok') t.
Proof.
  revert tok acc images t.
  induction fuel as [|fuel IH]; intros tok acc images t H; [discriminate|].
  simpl in H. simpl.
  destruct (files_list svc q tok) as [results|e]; [|discriminate].
  destruct (collect_images (get (pg_files results) []) acc) as [images1|e]
    eqn:Hcollect; [|discriminate].
  destruct (collect_images_spec _ _ _ Hcollect) as (new1 & -> & Hnew1).
  destruct (more_pages (pg_nextPageToken results)).
  - destruct (list_loop svc q fuel (pg_nextPageToken results) (acc ++ new1))
      as [[r t1]|] eqn:Hloop; [|discriminate].
    injection H as -> <-.
    destruct (IH _ _ _ _ Hloop) as (files & new & -> & -> & Hnew & Ht).
    exists (get (pg_files results) [] ++ files), (new1 ++ new).
    split; [reflexivity|]. split; [by rewrite app_assoc|].
    split; [rewrite List.filter_app; by apply Forall2_app|].
    constructor; [eauto|exact Ht].
  - injection H as <- <-.
    exists (get (pg_files results) []), new1.
    split; [reflexivity|]. split; [reflexivity|]. split; [exact Hnew1|].
    constructor; [eauto|constructor].
Qed.

Lemma listed_files_from_page svc q fuel tok files file :
  listed_files svc q fuel tok = Some files ->
  file ∈ files ->
  exists tok' results,
    files_list svc q tok' = Ret results
    /\ file ∈ get (pg_files results) [].
Proof.
  revert tok files.
  induction fuel as [|fuel IH]; intros tok files H Hin; [discriminate|].
  simpl in H.
  destruct (files_list svc q tok) as [results|e] eqn:E.
  - destruct (more_pages (pg_nextPageToken results)).
    + destruct (listed_files svc q fuel (pg_nextPageToken results))
        as [files1|] eqn:E1; [|discriminate].
      injection H as <-. apply elem_of_app in Hin as [Hin|Hin]; eauto.
    + injection H as <-. eauto.
  - injection H as <-. by apply elem_of_nil in Hin.
Qed.

Lemma to_image_name file img :
  to_image file = Some img -> img_name img = get (rf_name file) "".
Proof.
  unfold to_image. destruct (rf_id file); [|discriminate].
  by intros [= <-].
Qed.

Lemma Forall2_filter_sound files images img :
  Forall2 (fun file img => to_image file = Some img)
          (List.filter is_image_file files) images ->
  img ∈ images ->
  exists file, file ∈ files /\ is_image_file file = true
               /\ to_image file = Some img.
Proof.
  intros HF Hin.
  destruct (proj1 (list_elem_of_lookup _ _) Hin) as [i Hi].
  destruct (Forall2_lookup_r _ _ _ _ _ HF Hi) as (file & Hfile & Himg).
  apply list_elem_of_lookup_2, list_elem_of_In, List.filter_In in Hfile.
  destruct Hfile as [Hfile Hkeep].
  exists file. by rewrite list_elem_of_In.
Qed.

Lemma Forall2_filter_complete files images file :
  Forall2 (fun file img => to_image file = Some img)
          (List.filter is_image_file files) images ->
  file ∈ files -> is_image_file file = true ->
  exists img, to_image file = Some img /\ img ∈ images.
Proof.
  intros HF Hin Hkeep.
  assert (file ∈ List.filter is_image_file files) as Hf.
  { apply list_elem_of_In, List.filter_In. by rewrite <- list_elem_of_In. }
  destruct (proj1 (list_elem_of_lookup _ _) Hf) as [i Hi].
  destruct (Forall2_lookup_l _ _ _ _ _ HF Hi) as (img & Himg & Hto).
  exists img. split; [exact Hto|]. by eapply list_elem_of_lookup_2.
Qed.

Lemma contains_char_cons c a s :
  contains_char c (String a s) = Ascii.eqb a c || contains_char c s.
Proof. reflexivity. Qed.

(** Inside a string literal, a text without quote and backslash is read as
    it is. *)
Lemma lex_plain fid rest acc :
  plain_id fid = true ->
  Drive.lex (fid +:+ rest) (Drive.InStr acc)
  = Drive.lex rest (Drive.InStr (acc +:+ fid)).
Proof.
  revert acc. induction fid as [|c fid IH]; intros acc Hplain.
  - by rewrite string_app_nil_l, string_app_nil_r.
  - unfold plain_id in Hplain. rewrite !contains_char_cons in Hplain.
    apply andb_prop in Hplain as [Hq Hb].
    apply negb_true_iff, orb_false_elim in Hq as [Hq Hq'].
    apply negb_true_iff, orb_false_elim in Hb as [Hb Hb'].
    rewrite string_app_cons. simpl. rewrite Hq, Hb.
    rewrite IH; [|unfold plain_id; by rewrite Hq', Hb'].
    unfold Drive.snoc. by rewrite string_app_assoc.
Qed.

Lemma parse_folder_query fid :
  plain_id fid = true ->
  Drive.parse ("trashed=false" +:+ " and '" +:+ fid +:+ "' in parents")
  = Some [[Drive.Trashed false; Drive.InParents fid]].
Proof.
  intros Hplain. unfold Drive.parse.
  assert (Drive.lex ("trashed=false" +:+ " and '" +:+ fid +:+ "' in parents")
            Drive.Idle
          = Some [Drive.TWord "trashed=false"; Drive.TWord "and";
                  Drive.TStr fid; Drive.TWord "in"; Drive.TWord "parents"])
    as ->; [|reflexivity].
  change ("trashed=false" +:+ " and '" +:+ fid +:+ "' in parents")
    with ("trashed=false and '" +:+ (fid +:+ "' in parents")).
  repeat (rewrite string_app_cons; simpl).
  rewrite string_app_nil_l, lex_plain by exact Hplain.
  reflexivity.
Qed.

(** What the query of the lister selects, when the folder id is plain:
    files that are not in the trash, inside the folder when one is
    given. *)
Lemma build_query_selects folder_id f e :
  (forall fid, folder_id = Some fid -> plain_id fid = true) ->
  Drive.parse (build_query folder_id) = Some f ->
  Drive.selects f e = true ->
  Drive.en_trashed e = false /\ in_scope folder_id (Drive.en_file e).
Proof.
  intros Hplain Hparse Hsel. unfold build_query in Hparse.
  destruct folder_id as [fid|].
  - destruct (Py.truthy fid) eqn:Hfid.
    + rewrite parse_folder_query in Hparse by auto.
      injection Hparse as <-. simpl in Hsel.
      rewrite orb_false_r, andb_true_r in Hsel.
      apply andb_prop in Hsel as [Htrash Hin].
      apply Bool.eqb_prop in Htrash. apply bool_decide_eq_true in Hin.
      split; [exact Htrash|]. by intros ? [= <-] _.
    + injection Hparse as <-. simpl in Hsel.
      rewrite orb_false_r, andb_true_r in Hsel.
      apply Bool.eqb_prop in Hsel. split; [exact Hsel|].
      intros ? [= <-] Ht. congruence.
  - injection Hparse as <-. simpl in Hsel.
    rewrite orb_false_r, andb_true_r in Hsel.
    apply Bool.eqb_prop in Hsel. split; [exact Hsel|]. by intros ? [=].
Qed.

(** The provider of [Drive] lists selected files only. *)
Lemma drive_honours lib : honours (Drive.svc lib) lib.
Proof.
  intros q tok results file Hlist Hin. simpl in Hlist.
  unfold Drive.files_list in Hlist.
  destruct (Drive.parse q) as [f|]; [|discriminate].
  injection Hlist as <-. simpl in Hin.
  apply list_elem_of_fmap in Hin as (e & -> & He).
  apply list_elem_of_In, List.filter_In in He as [He Hsel].
  exists f, e. by rewrite list_elem_of_In.
Qed.

(** C4, amended.  The lister itself selects by extension only: its result
    is made of the records of the listed files whose lower-cased name has
    an extension of the fixed set, in order, and names that differ only by
    case are treated alike ("IMG.JPG" passes the test, "notes.txt" does
    not).  Leaving out the files in the trash is the provider's part, asked
    for by the query sent with every page request.  For a provider that
    lists only what the query selects, and a folder id without quote and
    backslash, every listed file is a file that is not in the trash, of the
    folder when one is given; a listed file is then in the result if and
    only if it is not trashed and its extension is in the set. *)
Theorem get_image_files_filter svc lib fuel folder_id images t :
  honours svc lib ->
  (forall fid, folder_id = Some fid -> plain_id fid = true) ->
  get_image_files svc fuel folder_id = Some (Ret images, t) ->
  exists files,
    listed_files svc (build_query folder_id) fuel None = Some files
    /\ Forall (fun e => exists tok, e = EList (build_query folder_id) tok) t
    /\ Forall2 (fun file img => to_image file = Some img)
               (List.filter is_image_file files) images
    /\ (forall file, file ∈ files ->
          exists e,
            e ∈ lib /\ Drive.en_file e = file
            /\ Drive.en_trashed e = false
            /\ in_scope folder_id file
            /\ ((exists img, to_image file = Some img /\ img ∈ images)
                <-> Drive.en_trashed e = false
                    /\ file_ext (get (rf_name file) "") ∈ IMAGE_EXTENSIONS))
    /\ (forall n1 n2, Py.lower n1 = Py.lower n2 ->
                      is_image_name n1 = is_image_name n2)
    /\ is_image_name "IMG.JPG" = true
    /\ is_image_name "notes.txt" = false.
Proof.
  intros Hsvc Hplain H. unfold get_image_files in H.
  destruct (list_loop_spec _ _ _ _ _ _ _ H)
    as (files & new & Hfiles & -> & Hnew & Ht).
  exists files. split; [exact Hfiles|]. split; [exact Ht|].
  split; [exact Hnew|]. split; [|split; [|split; reflexivity]].
  - intros file Hin.
    destruct (listed_files_from_page _ _ _ _ _ _ Hfiles Hin)
      as (tok' & results & Hpage & Hfile).
    destruct (Hsvc _ _ _ _ Hpage Hfile) as (f & e & Hparse & He & <- & Hsel).
    destruct (build_query_selects _ _ _ Hplain Hparse Hsel) as [Htrash Hscope].
    exists e. split; [exact He|]. split; [reflexivity|].
    split; [exact Htrash|]. split; [exact Hscope|]. split.
    + intros (img & Hto & Himg). split; [exact Htrash|].
      destruct (Forall2_filter_sound _ _ _ Hnew Himg)
        as (file' & _ & Hkeep & Hto').
      unfold is_image_file, is_image_name in Hkeep.
      apply bool_decide_eq_true in Hkeep.
      apply to_image_name in Hto. apply to_image_name in Hto'.
      by rewrite <- Hto, Hto'.
    + intros [_ Hext].
      apply (Forall2_filter_complete _ _ _ Hnew Hin).
      unfold is_image_file, is_image_name. by apply bool_decide_eq_true.
  - intros n1 n2 Heq. unfold is_image_name, file_ext. by rewrite Heq.
Qed.

Lemma get_image_files_filter_witness :
  exists files,
    listed_files (Drive.svc Drive.lib) (build_query (Some "f2")) 1 None
    = Some files
    /\ Forall2 (fun file img => to_image file = Some img)
               (List.filter is_image_file files) [Demo.image1]
    /\ (forall file, file ∈ files ->
          exists e,
            e ∈ Drive.lib /\ Drive.en_file e = file
            /\ Drive.en_trashed e = false
            /\ in_scope (Some "f2") file
            /\ ((exists img, to_image file = Some img /\ img ∈ [Demo.image1])
                <-> Drive.en_trashed e = false
                    /\ file_ext (get (rf_name file) "") ∈ IMAGE_EXTENSIONS)).
Proof.
  destruct (get_image_files_filter (Drive.svc Drive.lib) Drive.lib 1
              (Some "f2") [Demo.image1]
              [EList "trashed=false and 'f2' in parents" None]
              (drive_honours Drive.lib))
    as (files & Hfiles & _ & Hnew & Hiff & _).
  - by intros fid [= <-].
  - reflexivity.
  - exists files. split; [exact Hfiles|]. split; [exact Hnew|exact Hiff].
Defined.

(** C4 as stated fails for a folder id that holds a quote.  Line 50 pastes
    the id into the query as it was typed: [x' in parents or 'f2] gives the
    query [trashed=false and 'x' in parents or 'f2' in parents], which
    selects every file of the folder [f2].  The provider lists "old.png",
    which is in the trash, and the lister includes it: for this listed
    file, being in the result is not equivalent to being non-trashed with
    an image extension. *)
Lemma quoted_folder_id_counterexample :
  honours (Drive.svc Drive.lib) Drive.lib
  /\ folder_scope Drive.typed = Some Drive.typed
  /\ plain_id Drive.typed = false
  /\ build_query (Some Drive.typed)
     = "trashed=false and 'x' in parents or 'f2' in parents"
  /\ get_image_files (Drive.svc Drive.lib) 1 (Some Drive.typed)
     = Some (Ret [Demo.image1; Drive.old_image],
             [EList "trashed=false and 'x' in parents or 'f2' in parents"
                    None])
  /\ listed_files (Drive.svc Drive.lib) (build_query (Some Drive.typed)) 1 None
     = Some [Demo.img1; Demo.old; Demo.txt]
  /\ Drive.Entry Demo.old true ∈ Drive.lib
  /\ ~ (exists e,
          e ∈ Drive.lib /\ Drive.en_file e = Demo.old
          /\ ((exists img, to_image Demo.old = Some img
                           /\ img ∈ [Demo.image1; Drive.old_image])
              <-> Drive.en_trashed e = false
                  /\ file_ext (get (rf_name Demo.old) "") ∈ IMAGE_EXTENSIONS)).
Proof.
  split; [apply drive_honours|].
  split; [reflexivity|]. split; [reflexivity|]. split; [reflexivity|].
  split; [reflexivity|]. split; [reflexivity|].
  split; [apply list_elem_of_In; simpl; tauto|].
  intros (e & He & Hfile & Hiff).
  assert (Drive.en_trashed e = false) as Htrash.
  { apply Hiff. exists Drive.old_image. split; [reflexivity|].
    apply list_elem_of_In. simpl. tauto. }
  apply list_elem_of_In in He. simpl in He.
  destruct He as [<-|[<-|[<-|[<-|[<-|[]]]]]]; discriminate.
Qed.

(** ** C9: the JSON file *)

Lemma string_length_app (a b : string) :
  String.length (a +:+ b) = String.length a + String.length b.
Proof.
  induction a as [|x a IH]; [reflexivity|].
  rewrite string_app_cons. simpl. by rewrite IH.
Qed.

Lemma skip_ws_spaces n s : Json.skip_ws (Json.spaces n +:+ s) = Json.skip_ws s.
Proof. induction n as [|n IH]; [reflexivity|]. exact IH. Qed.

Lemma skip_ws_newline_indent level s :
  Json.skip_ws (Json.newline_indent level +:+ s) = Json.skip_ws s.
Proof.
  unfold Json.newline_indent. rewrite string_app_assoc.
  change (Json.skip_ws (Json.spaces (2 * level) +:+ s) = Json.skip_ws s).
  apply skip_ws_spaces.
Qed.

Lemma scanstring_escape_char c tail :
  Json.scanstring (Json.escape_char c +:+ tail)
  = Json.cons_char c (Json.scanstring tail).
Proof.
  destruct c as [[] [] [] [] [] [] [] []]; reflexivity.
Qed.

Lemma scanstring_escape s rest :
  Json.scanstring (Json.escape s +:+ Json.quote +:+ rest) = Some (s, rest).
Proof.
  induction s as [|c s IH]; [reflexivity|].
  simpl. rewrite string_app_assoc, scanstring_escape_char, IH. reflexivity.
Qed.

Lemma scanstring_dump_string s rest :
  exists tail,
    Json.dump_string s +:+ rest = String (ascii_of_nat 34) tail
    /\ Json.scanstring tail = Some (s, rest).
Proof.
  exists (Json.escape s +:+ Json.quote +:+ rest). split.
  - unfold Json.dump_string. by rewrite !string_app_assoc.
  - apply scanstring_escape.
Qed.

Lemma scan_once_ws n s s' :
  Json.skip_ws s = Json.skip_ws s' -> Json.scan_once n s = Json.scan_once n s'.
Proof. intros H. destruct n; [reflexivity|]. simpl. by rewrite H. Qed.

Lemma scan_once_indent n level s :
  Json.scan_once n (Json.newline_indent level +:+ s) = Json.scan_once n s.
Proof. apply scan_once_ws, skip_ws_newline_indent. Qed.

Lemma skip_ws_comma s : Json.skip_ws ("," +:+ s) = String "," s.
Proof. reflexivity. Qed.

(** The first character of an encoded value opens a string, an array or
    an object. *)
Lemma dump_head level v :
  exists c tail,
    Json.dump level v = String c tail
    /\ (c = ascii_of_nat 34 \/ c = "["%char \/ c = "{"%char).
Proof.
  destruct v as [s|[|v vs]|[|kv ms]]; eexists _, _;
    (split; [reflexivity|]); auto.
Qed.

Lemma dump_array level v vs rest :
  Json.dump level (JArray (v :: vs)) +:+ rest
  = String "["
      (Json.newline_indent (S level)
       +:+ Py.join ("," +:+ Json.newline_indent (S level))
             (map (Json.dump (S level)) (v :: vs))
       +:+ Json.newline_indent level +:+ String "]" rest).
Proof.
  change (Json.dump level (JArray (v :: vs)))
    with ("[" +:+ Json.newline_indent (S level)
          +:+ Py.join ("," +:+ Json.newline_indent (S level))
                (map (Json.dump (S level)) (v :: vs))
          +:+ Json.newline_indent level +:+ "]").
  by rewrite !string_app_assoc.
Qed.

Lemma dump_object level kv ms rest :
  Json.dump level (JObject (kv :: ms)) +:+ rest
  = String "{"
      (Json.newline_indent (S level)
       +:+ Py.join ("," +:+ Json.newline_indent (S level))
             (map (dump_member (S level)) (kv :: ms))
       +:+ Json.newline_indent level +:+ String "}" rest).
Proof.
  change (Json.dump level (JObject (kv :: ms)))
    with ("{" +:+ Json.newline_indent (S level)
          +:+ Py.join ("," +:+ Json.newline_indent (S level))
                (map (dump_member (S level)) (kv :: ms))
          +:+ Json.newline_indent level +:+ "}").
  by rewrite !string_app_assoc.
Qed.

Lemma size_array items : Json.size (JArray items) = S (items_size items).
Proof. reflexivity. Qed.

Lemma size_object members :
  Json.size (JObject members) = S (members_size members).
Proof. reflexivity. Qed.

Lemma items_size_cons v vs :
  items_size (v :: vs) = S (Json.size v) + items_size vs.
Proof. reflexivity. Qed.

Lemma members_size_cons kv ms :
  members_size (kv :: ms) = S (Json.size kv.2) + members_size ms.
Proof. reflexivity. Qed.

Lemma join_map_single {A} sep (f : A -> string) a :
  Py.join sep (map f [a]) = f a.
Proof. reflexivity. Qed.

Lemma join_map_cons {A} sep (f : A -> string) a b (l : list A) :
  Py.join sep (map f (a :: b :: l))
  = f a +:+ sep +:+ Py.join sep (map f (b :: l)).
Proof. reflexivity. Qed.

Lemma skip_ws_dump level v rest :
  exists c tail,
    Json.skip_ws (Json.dump level v +:+ rest) = String c tail
    /\ Json.dump level v +:+ rest = String c tail
    /\ (c = ascii_of_nat 34 \/ c = "["%char \/ c = "{"%char).
Proof.
  destruct (dump_head level v) as (c & tail & -> & Hc).
  exists c, (tail +:+ rest). rewrite string_app_cons.
  split; [|by split].
  destruct Hc as [->|[->| ->]]; reflexivity.
Qed.

Lemma scan_members_ws n s s' :
  Json.skip_ws s = Json.skip_ws s' ->
  Json.scan_members n s = Json.scan_members n s'.
Proof. intros H. destruct n; [reflexivity|]. simpl. by rewrite H. Qed.

(** One member: the key, the colon, the value, then "}" or ",". *)
Lemma scan_members_key n k tail :
  Json.scan_members (S n) (Json.dump_string k +:+ ": " +:+ tail)
  = match Json.scan_once n tail with
    | None => None
    | Some (v, r3) =>
        match Json.skip_ws r3 with
        | EmptyString => None
        | String c3 r4 =>
            if (nat_of_ascii c3 =? 125)%nat then Some ([(k, v)], r4)
            else if (nat_of_ascii c3 =? 44)%nat then
              match Json.scan_members n r4 with
              | Some (ms, rest) => Some ((k, v) :: ms, rest)
              | None => None
              end
            else None
        end
    end.
Proof.
  destruct (scanstring_dump_string k (": " +:+ tail)) as (t & Heq & Hscan).
  rewrite Heq.
  change (Json.scan_members (S n) (String (ascii_of_nat 34) t))
    with (match Json.scanstring t with
          | None => None
          | Some (key, r1) =>
              match Json.skip_ws r1 with
              | EmptyString => None
              | String c1 r2 =>
                  if (nat_of_ascii c1 =? 58)%nat then
                    match Json.scan_once n r2 with
                    | None => None
                    | Some (v, r3) =>
                        match Json.skip_ws r3 with
                        | EmptyString => None
                        | String c3 r4 =>
                            if (nat_of_ascii c3 =? 125)%nat then
                              Some ([(key, v)], r4)
                            else if (nat_of_ascii c3 =? 44)%nat then
                              match Json.scan_members n r4 with
                              | Some (ms, rest) => Some ((key, v) :: ms, rest)
                              | None => None
                              end
                            else None
                        end
                    end
                  else None
              end
          end).
  rewrite Hscan.
  change (Json.skip_ws (": " +:+ tail)) with (String ":" (String " " tail)).
  cbv iota beta.
  change (nat_of_ascii ":" =? 58)%nat with true. cbv iota.
  by rewrite (scan_once_ws n (String " " tail) tail).
Qed.

Lemma scan_roundtrip n :
  (forall v level rest,
     Json.size v <= n ->
     Json.scan_once n (Json.dump level v +:+ rest) = Some (v, rest))
  /\ (forall items level level0 rest,
        items <> [] -> items_size items <= n ->
        Json.scan_items n
          (Json.newline_indent level
           +:+ Py.join ("," +:+ Json.newline_indent level)
                 (map (Json.dump level) items)
           +:+ Json.newline_indent level0 +:+ String "]" rest)
        = Some (items, rest))
  /\ (forall members level level0 rest,
        members <> [] -> members_size members <= n ->
        Json.scan_members n
          (Json.newline_indent level
           +:+ Py.join ("," +:+ Json.newline_indent level)
                 (map (dump_member level) members)
           +:+ Json.newline_indent level0 +:+ String "}" rest)
        = Some (members, rest)).
Proof.
  induction n as [|n (IHv & IHi & IHm)].
  { split; [|split].
    - intros v level rest H. destruct v; simpl in H; lia.
    - intros [|v vs] level level0 rest Hne H; [done|].
      unfold items_size in H. simpl in H. lia.
    - intros [|kv ms] level level0 rest Hne H; [done|].
      unfold members_size in H. simpl in H. lia. }
  split; [|split].
  - intros v level rest Hsize.
    destruct v as [s|[|v vs]|[|kv ms]].
    + destruct (scanstring_dump_string s rest) as (tail & Heq & Hscan).
      change (Json.dump level (JString s)) with (Json.dump_string s).
      rewrite Heq. simpl. by rewrite Hscan.
    + reflexivity.
    + rewrite dump_array.
      assert (items_size (v :: vs) <= n) as Hn
        by (rewrite size_array in Hsize; lia).
      pose proof (IHi (v :: vs) (S level) level rest ltac:(done) Hn) as Hitems.
      change (Json.scan_once (S n) (String "[" ?r))
        with (match Json.skip_ws r with
              | EmptyString => None
              | String c2 r2 =>
                  if (nat_of_ascii c2 =? 93)%nat then Some (JArray [], r2)
                  else match Json.scan_items n r with
                       | Some (items, rest) => Some (JArray items, rest)
                       | None => None
                       end
              end).
      rewrite Hitems.
      rewrite skip_ws_newline_indent.
      destruct vs as [|v2 vs].
      * rewrite join_map_single.
        destruct (skip_ws_dump (S level) v (Json.newline_indent level +:+ String "]" rest))
          as (c & tail & -> & _ & [->|[->| ->]]); reflexivity.
      * rewrite join_map_cons, string_app_assoc.
        destruct (skip_ws_dump (S level) v
                    (("," +:+ Json.newline_indent (S level))
                     +:+ Py.join ("," +:+ Json.newline_indent (S level))
                           (map (Json.dump (S level)) (v2 :: vs))
                     +:+ Json.newline_indent level +:+ String "]" rest))
          as (c & tail & Hskip & _ & Hc).
        rewrite !string_app_assoc in Hskip. rewrite !string_app_assoc.
        rewrite Hskip.
        destruct Hc as [->|[->| ->]]; reflexivity.
    + reflexivity.
    + rewrite dump_object.
      assert (members_size (kv :: ms) <= n) as Hn
        by (rewrite size_object in Hsize; lia).
      pose proof (IHm (kv :: ms) (S level) level rest ltac:(done) Hn)
        as Hmembers.
      change (Json.scan_once (S n) (String "{" ?r))
        with (match Json.skip_ws r with
              | EmptyString => None
              | String c2 r2 =>
                  if (nat_of_ascii c2 =? 125)%nat then Some (JObject [], r2)
                  else match Json.scan_members n r with
                       | Some (members, rest) => Some (JObject members, rest)
                       | None => None
                       end
              end).
      rewrite Hmembers. rewrite skip_ws_newline_indent.
      assert (exists tail,
                Py.join ("," +:+ Json.newline_indent (S level))
                  (map (dump_member (S level)) (kv :: ms))
                +:+ Json.newline_indent level +:+ String "}" rest
                = String (ascii_of_nat 34) tail) as [tail ->].
      { destruct ms as [|kv2 ms]; eexists;
          rewrite ?join_map_single, ?join_map_cons; unfold dump_member at 1;
          unfold Json.dump_string; rewrite !string_app_assoc;
          reflexivity. }
      reflexivity.
  - intros [|v vs] level level0 rest Hne Hsize; [done|].
    rewrite items_size_cons in Hsize.
    change (Json.scan_items (S n) ?s)
      with (match Json.scan_once n s with
            | None => None
            | Some (v, r) =>
                match Json.skip_ws r with
                | EmptyString => None
                | String c r' =>
                    if (nat_of_ascii c =? 93)%nat then Some ([v], r')
                    else if (nat_of_ascii c =? 44)%nat then
                      match Json.scan_items n r' with
                      | Some (vs, rest) => Some (v :: vs, rest)
                      | None => None
                      end
                    else None
                end
            end).
    rewrite scan_once_indent.
    destruct vs as [|v2 vs].
    + rewrite join_map_single.
      rewrite IHv by lia. rewrite skip_ws_newline_indent. reflexivity.
    + rewrite join_map_cons, !string_app_assoc.
      rewrite IHv by lia.
      rewrite skip_ws_comma.
      cbv iota beta.
      change (nat_of_ascii "," =? 93)%nat with false.
      change (nat_of_ascii "," =? 44)%nat with true.
      cbv iota.
      rewrite items_size_cons in Hsize.
      rewrite IHi; [reflexivity|done|rewrite items_size_cons; lia].
  - intros [|[k v] ms] level level0 rest Hne Hsize; [done|].
    rewrite members_size_cons in Hsize. simpl in Hsize.
    rewrite (scan_members_ws _ _
               (Py.join ("," +:+ Json.newline_indent level)
                  (map (dump_member level) ((k, v) :: ms))
                +:+ Json.newline_indent level0 +:+ String "}" rest))
      by apply skip_ws_newline_indent.
    destruct ms as [|kv2 ms].
    + rewrite join_map_single. unfold dump_member. simpl fst. simpl snd.
      rewrite !string_app_assoc, scan_members_key.
      rewrite IHv by lia. rewrite skip_ws_newline_indent. reflexivity.
    + rewrite join_map_cons. unfold dump_member at 1. simpl fst. simpl snd.
      rewrite !string_app_assoc, scan_members_key.
      rewrite IHv by lia.
      rewrite skip_ws_comma. cbv iota beta.
      change (nat_of_ascii "," =? 125)%nat with false.
      change (nat_of_ascii "," =? 44)%nat with true.
      cbv iota.
      rewrite members_size_cons in Hsize.
      rewrite IHm; [reflexivity|done|rewrite members_size_cons; lia].
Qed.

Lemma dump_string_length s : 2 <= String.length (Json.dump_string s).
Proof.
  unfold Json.dump_string. rewrite !string_length_app.
  change (String.length Json.quote) with 1. lia.
Qed.

Lemma newline_indent_length level :
  1 <= String.length (Json.newline_indent level).
Proof.
  unfold Json.newline_indent. rewrite string_length_app.
  change (String.length Json.newline) with 1. lia.
Qed.

(** An encoded list is at least as long as its items and separators. *)
Lemma join_length {A} sep (f : A -> string) (g : A -> nat) (l : list A) :
  1 <= String.length sep ->
  Forall (fun a => g a <= String.length (f a)) l ->
  list_sum (map (fun a => S (g a)) l)
  <= S (String.length (Py.join sep (map f l))).
Proof.
  intros Hsep. induction 1 as [|a l Ha Hl IH]; [simpl; lia|].
  destruct l as [|b l].
  - rewrite join_map_single. simpl. lia.
  - rewrite join_map_cons, !string_length_app.
    change (list_sum (map (fun a => S (g a)) (a :: b :: l)))
      with (S (g a) + list_sum (map (fun a => S (g a)) (b :: l))).
    lia.
Qed.

Lemma size_le_length n : forall v level,
  Json.size v <= n -> Json.size v <= String.length (Json.dump level v).
Proof.
  induction n as [|n IH]; intros v level Hn;
    [destruct v; simpl in Hn; lia|].
  destruct v as [s|[|v vs]|[|kv ms]].
  - pose proof (dump_string_length s). simpl. 
    change (Json.dump level (JString s)) with (Json.dump_string s). lia.
  - simpl. lia.
  - rewrite size_array in *.
    pose proof (dump_array level v vs "") as Hd.
    rewrite string_app_nil_r in Hd. rewrite Hd. clear Hd.
    change (String.length (String "[" ?r)) with (S (String.length r)).
    rewrite !string_length_app.
    pose proof (newline_indent_length (S level)).
    pose proof (newline_indent_length level).
    assert (items_size (v :: vs)
            <= S (String.length
                    (Py.join ("," +:+ Json.newline_indent (S level))
                       (map (Json.dump (S level)) (v :: vs))))) as Hj.
    { apply (join_length _ (Json.dump (S level)) Json.size).
      - rewrite string_length_app. simpl. lia.
      - apply Forall_forall. intros x Hx. apply IH.
        assert (S (Json.size x) <= items_size (v :: vs)); [|lia].
        clear -Hx. induction Hx as [x l|x y l Hx IHx].
        + rewrite items_size_cons. lia.
        + rewrite items_size_cons. lia. }
    change (String.length (String "]" "")) with 1. lia.
  - simpl. lia.
  - rewrite size_object in *.
    pose proof (dump_object level kv ms "") as Hd.
    rewrite string_app_nil_r in Hd. rewrite Hd. clear Hd.
    change (String.length (String "{" ?r)) with (S (String.length r)).
    rewrite !string_length_app.
    pose proof (newline_indent_length (S level)).
    pose proof (newline_indent_length level).
    assert (members_size (kv :: ms)
            <= S (String.length
                    (Py.join ("," +:+ Json.newline_indent (S level))
                       (map (dump_member (S level)) (kv :: ms))))) as Hj.
    { apply (join_length _ (dump_member (S level))
               (fun kv => Json.size kv.2)).
      - rewrite string_length_app. simpl. lia.
      - apply Forall_forall. intros x Hx. unfold dump_member.
        rewrite !string_length_app.
        assert (Json.size x.2 <= String.length (Json.dump (S level) x.2));
          [|lia].
        apply IH.
        assert (S (Json.size x.2) <= members_size (kv :: ms)); [|lia].
        clear -Hx. induction Hx as [x l|x y l Hx IHx].
        + rewrite members_size_cons. lia.
        + rewrite members_size_cons. lia. }
    change (String.length (String "}" "")) with 1. lia.
Qed.

Lemma loads_dumps v : Json.loads (Json.dumps v) = Some v.
Proof.
  unfold Json.loads, Json.dumps.
  pose proof (size_le_length _ v 0 (le_n _)) as Hlen.
  destruct (scan_roundtrip (S (String.length (Json.dump 0 v)))) as [H _].
  specialize (H v 0 "" ltac:(lia)).
  rewrite string_app_nil_r in H. by rewrite H.
Qed.

Lemma json_ids_images images :
  json_ids (images_to_json images) = Some (map img_id images).
Proof.
  unfold json_ids, images_to_json.
  induction images as [|img images IH]; [reflexivity|].
  rewrite !map_cons. simpl mapM. rewrite IH. reflexivity.
Qed.

Lemma bind_inv {A B} (m : M A) (f : A -> M B) w r w' :
  (m ≫= f) w = Some (r, w') ->
  (exists e, m w = Some (Raise e, w') /\ r = Raise e)
  \/ exists a w1, m w = Some (Ret a, w1) /\ f a w1 = Some (r, w').
Proof.
  rewrite bind_eq. destruct (m w) as [[[a|e] w1]|]; [|intros [= <- <-]|];
    [eauto..|discriminate].
Qed.

Lemma run_listing_inv svc fuel folder_id w images w' :
  run_listing svc fuel folder_id w = Some (Ret images, w') ->
  exists t, get_image_files svc fuel folder_id = Some (Ret images, t).
Proof.
  unfold run_listing.
  destruct (get_image_files svc fuel folder_id) as [[r t]|]; [|discriminate].
  rewrite bind_eq. simpl. intros [= -> _]. eauto.
Qed.

Ltac inv_bind H a w1 Hstep :=
  apply bind_inv in H;
  destruct H as [(? & _ & ->)|(a & w1 & Hstep & H)]; [left; eauto|].

(** The three ways the body of [main] ends: an exception; no image; the
    JSON dump of the listing, written last.  In the last case the listing
    is the one of the service the authenticator returned, for the folder
    scope read from the first line of input. *)
Lemma main_body_inv lib fuel w r w' :
  main_body lib fuel w = Some (r, w') ->
  (exists e, r = Raise e)
  \/ last (w_trace w') = Some (EPrint "No image files found.")
  \/ exists svc w1 line images t output_file,
       (print "Authenticating with Google Drive...";;
        authenticate_gdrive lib) w = Some (Ret svc, w1)
       /\ head (w_stdin w) = Some line
       /\ get_image_files svc fuel (folder_scope line) = Some (Ret images, t)
       /\ last (w_trace w')
          = Some (EPrint ("Also saved JSON data to "
                          +:+ json_file_of output_file))
       /\ w_files w' !! json_file_of output_file
          = Some (Json.dumps (images_to_json images)).
Proof.
  unfold main_body. intros H.
  inv_bind H u w0 H0. inv_bind H svc w1 Hauth. inv_bind H line w2 Hin.
  cbv zeta in H.
  inv_bind H u1 w3 H3. inv_bind H images w4 Hlist.
  apply run_listing_inv in Hlist as [t Hlist].
  destruct images as [|img images].
  - right; left. injection H as _ <-. simpl. by rewrite last_snoc.
  - inv_bind H u2 w5 H5. inv_bind H line1 w6 H6. inv_bind H line2 w7 H7.
    cbv zeta in H.
    inv_bind H u3 w8 Hsave. inv_bind H u4 w9 Hopen. inv_bind H u5 w10 Hwrite.
    right; right. injection H as _ <-.
    eexists svc, w1, line, (img :: images), t, _.
    split; [by rewrite bind_eq, H0|].
    split.
    { destruct (authenticate_gdrive_frame lib _ _ _ Hauth) as (Hstdin & _).
      injection H0 as _ <-. simpl in Hstdin. rewrite <- Hstdin.
      unfold input in Hin. destruct (w_stdin w1); [discriminate|].
      by injection Hin as -> _. }
    split; [exact Hlist|].
    split; [simpl; by rewrite last_snoc|].
    simpl. unfold write in Hwrite. injection Hwrite as _ <-. simpl.
    rewrite lookup_insert_eq.
    unfold open_w in Hopen.
    destruct (w_denied w8 !! _); [discriminate|].
    injection Hopen as _ <-. simpl. by rewrite lookup_insert_eq.
Qed.

(** C9.  Whenever a run of [main] ends by announcing the JSON file, that
    file holds a document that the decoder reads back as one record per
    image of the listing of that run, with the same ids in the same
    order. *)
Theorem json_file_ids lib fuel w w' json_file :
  main lib fuel w = Some w' ->
  last (w_trace w')
  = Some (EPrint ("Also saved JSON data to " +:+ json_file)) ->
  exists svc w1 line images t content v,
    (print "Authenticating with Google Drive...";;
     authenticate_gdrive lib) w = Some (Ret svc, w1)
    /\ head (w_stdin w) = Some line
    /\ get_image_files svc fuel (folder_scope line) = Some (Ret images, t)
    /\ w_files w' !! json_file = Some content
    /\ Json.loads content = Some v
    /\ json_ids v = Some (map img_id images)
    /\ (exists records, v = JArray records
                         /\ List.length records = List.length images).
Proof.
  unfold main. intros Hmain Hlast.
  destruct (main_body lib fuel w) as [[[[]|e] wb]|] eqn:Hbody;
    [| |discriminate].
  - injection Hmain as ->.
    destruct (main_body_inv _ _ _ _ _ Hbody)
      as [[e He]|[Hnone|(svc & w1 & line & images & t & out
                         & Hauth & Hline & Hl & Hlast' & Hf)]].
    + discriminate.
    + rewrite Hnone in Hlast. discriminate.
    + rewrite Hlast' in Hlast. injection Hlast as Heq.
      change (json_file_of out = json_file) in Heq. subst json_file.
      exists svc, w1, line, images, t, (Json.dumps (images_to_json images)),
        (images_to_json images).
      split; [exact Hauth|]. split; [exact Hline|].
      split; [exact Hl|]. split; [exact Hf|].
      split; [apply loads_dumps|]. split; [apply json_ids_images|].
      eexists. split; [reflexivity|]. by rewrite length_map.
  - simpl in Hmain. injection Hmain as <-. simpl in Hlast.
    rewrite last_snoc in Hlast. discriminate.
Qed.

Lemma json_file_ids_witness :
  exists w' content v,
    main (Demo.lib Demo.svc) 5 (Demo.world_of [""; "out.txt"; "n"]) = Some w'
    /\ w_files w' !! "out.json" = Some content
    /\ Json.loads content = Some v
    /\ json_ids v = Some ["1"; "3"; "4"].
Proof.
  destruct (main (Demo.lib Demo.svc) 5 (Demo.world_of [""; "out.txt"; "n"]))
    as [w'|] eqn:Hmain; [|vm_compute in Hmain; discriminate].
  destruct (json_file_ids (Demo.lib Demo.svc) 5
              (Demo.world_of [""; "out.txt"; "n"]) w' "out.json" Hmain)
    as (svc & w1 & line & images & t & content & v
        & Hauth & Hline & Hl & Hf & Hloads & Hids & _).
  { vm_compute in Hmain. injection Hmain as <-. reflexivity. }
  exists w', content, v. split; [reflexivity|]. split; [exact Hf|].
  split; [exact Hloads|].
  vm_compute in Hauth. injection Hauth as <- _.
  injection Hline as <-.
  vm_compute in Hl. injection Hl as <- _.
  exact Hids.
Defined.

(** * Further properties of the script *)

(** ** The resolver and its cache *)

(** X1.  A call of the resolver only adds entries to the cache: every
    entry present before the call is present afterwards with the same
    path. *)
Theorem cache_entries_kept svc n fid c p c' t k v :
  get_folder_path svc n fid c = Some (p, c', t) ->
  c !! k = Some v -> c' !! k = Some v.
Proof.
  revert fid p c' t.
  induction n as [|n IH]; intros fid p c' t H Hk; [discriminate|].
  rewrite get_folder_path_S in H.
  destruct (c !! fid) eqn:Hfid; [by injection H as <- <- <-|].
  destruct (files_get svc fid) as [f|e]; [|by injection H as <- <- <-].
  assert (fid <> k) as Hne by congruence.
  destruct (first_parent f) as [parent|].
  - destruct (get_folder_path svc n parent c) as [[[pp c1] t1]|] eqn:E;
      [|discriminate].
    injection H as <- <- <-. rewrite lookup_insert_ne by assumption.
    eapply IH; eassumption.
  - injection H as <- <- <-. by rewrite lookup_insert_ne.
Qed.

Lemma cache_entries_kept_witness :
  resolve_all Demo.svc 5 ["f1"; "f2"] ∅ !! "f1" = Some "Photos".
Proof.
  apply (cache_entries_kept Demo.svc 5 "f2"
           (resolve_all Demo.svc 5 ["f1"] ∅) "Photos/2024"
           (resolve_all Demo.svc 5 ["f1"; "f2"] ∅) [EGet "f2"] "f1" "Photos");
    vm_compute; reflexivity.
Defined.

(** X2.  When the resolver returns a path for a folder that was cached or
    whose own metadata fetch succeeds, the cache it leaves maps the folder
    to that path, and resolving the folder again returns the same path
    with no fetch, no message and no change of the cache. *)
Theorem resolved_folder_cached svc n fid c p c' t :
  get_folder_path svc n fid c = Some (p, c', t) ->
  is_Some (c !! fid) \/ (exists f, files_get svc fid = Ret f) ->
  c' !! fid = Some p
  /\ forall m, get_folder_path svc (S m) fid c' = Some (p, c', []).
Proof.
  intros H Hok.
  assert (c' !! fid = Some p) as Hp.
  { destruct n as [|n]; [discriminate|].
    rewrite get_folder_path_S in H.
    destruct (c !! fid) eqn:Hfid; [by injection H as <- <- <-|].
    destruct Hok as [[? [=]]|[f Hf]]. rewrite Hf in H.
    destruct (first_parent f) as [parent|].
    - destruct (get_folder_path svc n parent c) as [[[pp c1] t1]|];
        [|discriminate].
      injection H as <- <- <-. apply lookup_insert_eq.
    - injection H as <- <- <-. apply lookup_insert_eq. }
  split; [exact Hp|]. intros m. by rewrite get_folder_path_S, Hp.
Qed.

Lemma resolved_folder_cached_witness :
  resolve_all Demo.svc 5 ["f2"] ∅ !! "f2" = Some "Photos/2024"
  /\ forall m,
       get_folder_path Demo.svc (S m) "f2" (resolve_all Demo.svc 5 ["f2"] ∅)
       = Some ("Photos/2024", resolve_all Demo.svc 5 ["f2"] ∅, []).
Proof.
  apply (resolved_folder_cached Demo.svc 5 "f2" ∅ "Photos/2024"
           (resolve_all Demo.svc 5 ["f2"] ∅) [EGet "f2"; EGet "f1"]).
  - vm_compute; reflexivity.
  - right. exists (Folder (Some "2024") (Some ["f1"])). reflexivity.
Defined.

(** X3.  For a folder whose chain of first parents can be fetched down to
    a parentless folder, a call of the resolver makes at most one request
    per folder and prints nothing: no folder id is fetched twice, every
    event is a fetch, and there are no more events than folders in the
    chain. *)
Theorem fetches_bounded_by_chain svc fid names fuel c p c' t :
  chain svc fid names ->
  get_folder_path svc fuel fid c = Some (p, c', t) ->
  (forall x, fetch_count x t <= 1)
  /\ List.length t <= List.length names
  /\ Forall (fun e => exists k, e = EGet k) t.
Proof.
  intros Hchain Hcall.
  split; [intros x; eapply fetched_once; exact Hcall|].
  revert fuel p c' t Hcall.
  induction Hchain as [fid f Hf Hp|fid f parent names Hf Hp Hc IH];
    intros fuel p c' t H; (destruct fuel as [|fuel]; [discriminate|]);
    rewrite get_folder_path_S in H;
    (destruct (c !! fid); [injection H as <- <- <-; split; [simpl; lia|constructor]|]);
    rewrite Hf, Hp in H.
  - injection H as <- <- <-. split; [simpl; lia|]. repeat constructor. eauto.
  - destruct (get_folder_path svc fuel parent c) as [[[pp c1] t1]|] eqn:E;
      [|discriminate].
    injection H as <- <- <-. destruct (IH _ _ _ _ E) as [Hlen Hall].
    split; [rewrite length_app; simpl; lia|].
    constructor; [eauto|exact Hall].
Qed.

Lemma fetches_bounded_by_chain_witness :
  (forall x, fetch_count x [EGet "f2"; EGet "f1"] <= 1)
  /\ List.length [EGet "f2"; EGet "f1"] <= List.length ["Photos"; "2024"]
  /\ Forall (fun e => exists k, e = EGet k) [EGet "f2"; EGet "f1"].
Proof.
  apply (fetches_bounded_by_chain Demo.svc "f2" ["Photos"; "2024"] 5 ∅
           "Photos/2024" (resolve_all Demo.svc 5 ["f2"] ∅)
           [EGet "f2"; EGet "f1"] chain_f2).
  vm_compute; reflexivity.
Defined.

Lemma get_folder_path_of_chain svc fid names c fuel :
  chain svc fid names ->
  reachable svc c ->
  List.length names <= fuel ->
  exists c' t,
    get_folder_path svc fuel fid c
    = Some (Py.join "/" (drop_empty names), c', t)
    /\ reachable svc c'.
Proof.
  intros Hchain Hc Hfuel.
  pose proof (chain_nonempty _ _ _ Hchain) as Hne.
  destruct (settles_returns svc _ fid c (chain_settles _ _ _ Hchain))
    as [[[p c'] t] Hp].
  apply (get_folder_path_fuel _ _ fuel) in Hp;
    [|destruct names; [done|simpl in *; lia]].
  destruct (get_folder_path_path_of svc _ _ _ _ _ _
              (reachable_consistent _ _ Hc) Hp) as [[m Hm] _].
  rewrite (path_of_agree _ _ _ _ _ _ Hm (chain_path_of _ _ _ Hchain)) in Hp.
  exists c', t. split; [exact Hp|]. eapply reach_call; eassumption.
Qed.

(** X4.  The full path written for an image is the path of its first
    parent, a "/", and the image's name, whatever the other parents: for a
    first parent whose chain can be fetched, the names of the chain without
    the leading empty ones, joined with "/", then "/" and the name.  The
    separator before the name is always written, so the path starts with
    "/" when the folder path is empty. *)
Theorem image_full_path_chain svc fuel img parent others names c :
  img_parents img = parent :: others ->
  chain svc parent names ->
  reachable svc c ->
  List.length names <= fuel ->
  exists c' t,
    image_full_path svc fuel img c
    = Some (Py.join "/" (drop_empty names) +:+ "/" +:+ img_name img, c', t).
Proof.
  intros Hp Hchain Hc Hfuel. unfold image_full_path. rewrite Hp.
  destruct (get_folder_path_of_chain _ _ _ _ _ Hchain Hc Hfuel)
    as (c' & t & -> & _).
  eauto.
Qed.

Lemma image_full_path_chain_witness :
  (exists c' t,
     image_full_path Demo.svc 2 Demo.image1 ∅
     = Some ("Photos/2024/IMG.JPG", c', t))
  /\ exists c' t,
       image_full_path Demo.svc 2 (Image "a.png" "8" "" "" ["e1"; "f2"]) ∅
       = Some ("2024/a.png", c', t).
Proof.
  split.
  - exact (image_full_path_chain Demo.svc 2 Demo.image1 "f2" []
             ["Photos"; "2024"] ∅ eq_refl chain_f2 (reach_empty _) (le_n 2)).
  - exact (image_full_path_chain Demo.svc 2
             (Image "a.png" "8" "" "" ["e1"; "f2"]) "e1" ["f2"]
             [""; "2024"] ∅ eq_refl chain_e1 (reach_empty _) (le_n 2)).
Defined.

(** ** Paths below a folder that cannot be fetched *)

Lemma broken_settles svc fid names :
  broken svc fid names -> settles svc (List.length names) fid.
Proof.
  induction 1 as [fid e He|fid f parent names Hf Hp _ IH].
  - eapply settles_fail; eassumption.
  - rewrite length_app, Nat.add_comm. eapply settles_step; eassumption.
Qed.

Lemma path_of_S svc n fid :
  path_of svc (S n) fid
  = match files_get svc fid with
    | Raise _ => Some "Unknown"
    | Ret f =>
        match first_parent f with
        | Some parent =>
            match path_of svc n parent with
            | Some parent_path =>
                Some (join_parent parent_path (get (fo_name f) ""))
            | None => None
            end
        | None => Some (get (fo_name f) "")
        end
    end.
Proof. reflexivity. Qed.

Lemma broken_path_of svc fid names :
  broken svc fid names ->
  path_of svc (S (List.length names)) fid
  = Some (Py.join "/" ("Unknown" :: names)).
Proof.
  induction 1 as [fid e He|fid f parent names Hf Hp _ IH].
  - by rewrite path_of_S, He.
  - rewrite length_app, Nat.add_comm.
    change (List.length [get (fo_name f) ""] + List.length names)
      with (S (List.length names)).
    rewrite path_of_S, Hf, Hp, IH. unfold join_parent.
    rewrite join_truthy by reflexivity.
    change ("Unknown" :: names ++ [get (fo_name f) ""])
      with (("Unknown" :: names) ++ [get (fo_name f) ""]).
    by rewrite join_snoc.
Qed.

(** X20.  Below a folder whose metadata cannot be fetched, every path is
    degraded in the same way: the resolver returns "Unknown", then the
    names of the folders between the failing folder and the folder asked
    for, joined with "/"; no name is dropped, even an empty one. *)
Theorem path_below_failure svc fid names c fuel :
  broken svc fid names ->
  reachable svc c ->
  List.length names < fuel ->
  exists c' t,
    get_folder_path svc fuel fid c
    = Some (Py.join "/" ("Unknown" :: names), c', t).
Proof.
  intros Hb Hc Hfuel.
  destruct (settles_returns svc _ fid c (broken_settles _ _ _ Hb))
    as [[[p c'] t] Hp].
  apply (get_folder_path_fuel _ _ fuel) in Hp; [|lia].
  destruct (get_folder_path_path_of svc _ _ _ _ _ _
              (reachable_consistent _ _ Hc) Hp) as [[m Hm] _].
  rewrite (path_of_agree _ _ _ _ _ _ Hm (broken_path_of _ _ _ Hb)) in Hp.
  eauto.
Qed.

Lemma broken_c : broken Demo.svc "c" ["child"].
Proof.
  apply (broken_step Demo.svc "c" (Folder (Some "child") (Some ["bad"]))
           "bad" []); [reflexivity..|].
  apply (broken_here Demo.svc "bad" "HttpError 404"). reflexivity.
Qed.

Lemma path_below_failure_witness :
  exists c' t,
    get_folder_path Demo.svc 2 "c" ∅ = Some ("Unknown/child", c', t).
Proof.
  exact (path_below_failure Demo.svc "c" ["child"] ∅ 2 broken_c
           (reach_empty _) (le_n 2)).
Defined.

(** ** The file lister *)

Lemma collect_images_raise files acc e :
  collect_images files acc = Raise e ->
  e = "'id'"
  /\ exists file, file ∈ files /\ is_image_file file = true
                  /\ rf_id file = None.
Proof.
  revert acc. induction files as [|file files IH]; intros acc H;
    [discriminate|].
  simpl in H. destruct (is_image_file file) eqn:Himg.
  - unfold to_image in H. destruct (rf_id file) eqn:Hid.
    + destruct (IH _ H) as (-> & file' & Hin & Hi & Hn).
      split; [reflexivity|]. exists file'. split; [by right|]. by split.
    + injection H as <-. split; [reflexivity|].
      exists file. split; [by left|]. by split.
  - destruct (IH _ H) as (-> & file' & Hin & Hi & Hn).
    split; [reflexivity|]. exists file'. split; [by right|]. by split.
Qed.

Lemma list_loop_raise svc q fuel tok acc e t :
  list_loop svc q fuel tok acc = Some (Raise e, t) ->
  (exists tok', files_list svc q tok' = Raise e)
  \/ (e = "'id'"
      /\ exists tok' results file,
           files_list svc q tok' = Ret results
           /\ file ∈ get (pg_files results) []
           /\ is_image_file file = true /\ rf_id file = None).
Proof.
  revert tok acc t.
  induction fuel as [|fuel IH]; intros tok acc t H; [discriminate|].
  simpl in H.
  destruct (files_list svc q tok) as [results|e'] eqn:Hpage;
    [|injection H as <- _; eauto].
  destruct (collect_images (get (pg_files results) []) acc) as [images|e']
    eqn:Hcollect.
  - destruct (more_pages (pg_nextPageToken results)); [|discriminate].
    destruct (list_loop svc q fuel (pg_nextPageToken results) images)
      as [[r t1]|] eqn:Hloop; [|discriminate].
    injection H as -> _. eapply IH; eassumption.
  - injection H as <- _.
    destruct (collect_images_raise _ _ _ Hcollect)
      as (-> & file & Hin & Himg & Hid).
    right. split; [reflexivity|]. eauto 10.
Qed.

(** X5.  The lister raises only for one of two reasons: a page request
    raised, and the lister raises the same error; or a page holds a file
    with an image extension and no [id] key, and the error is the
    [KeyError] of [file['id']].  A file without [id] that is not an image
    is never the cause. *)
Theorem get_image_files_raises svc fuel folder_id e t :
  get_image_files svc fuel folder_id = Some (Raise e, t) ->
  (exists tok, files_list svc (build_query folder_id) tok = Raise e)
  \/ (e = "'id'"
      /\ exists tok results file,
           files_list svc (build_query folder_id) tok = Ret results
           /\ file ∈ get (pg_files results) []
           /\ is_image_file file = true /\ rf_id file = None).
Proof. apply list_loop_raise. Qed.

Lemma get_image_files_raises_witness :
  (exists tok,
     files_list Demo2.failing_svc (build_query None) tok
     = Raise "HttpError 500")
  \/ ("HttpError 500" = "'id'"
      /\ exists tok results file,
           files_list Demo2.failing_svc (build_query None) tok = Ret results
           /\ file ∈ get (pg_files results) []
           /\ is_image_file file = true /\ rf_id file = None).
Proof.
  exact (get_image_files_raises Demo2.failing_svc 1 None "HttpError 500"
           [EList "trashed=false" None] eq_refl).
Defined.

Lemma list_loop_fuel svc q n m tok acc r :
  list_loop svc q n tok acc = Some r -> n <= m ->
  list_loop svc q m tok acc = Some r.
Proof.
  revert m tok acc r.
  induction n as [|n IH]; intros m tok acc r H Hle; [discriminate|].
  destruct m as [|m]; [lia|]. simpl in *.
  destruct (files_list svc q tok) as [results|e]; [|assumption].
  destruct (collect_images (get (pg_files results) []) acc) as [images|e];
    [|assumption].
  destruct (more_pages (pg_nextPageToken results)); [|assumption].
  destruct (list_loop svc q n (pg_nextPageToken results) images)
    as [[r1 t1]|] eqn:E; [|discriminate].
  by rewrite (IH m _ _ _ E) by lia.
Qed.

Lemma list_loop_returns svc q n tok acc :
  pages_end svc q n tok ->
  exists r t, list_loop svc q (S n) tok acc = Some (r, t)
              /\ head t = Some (EList q tok)
              /\ List.length t <= S n
              /\ Forall (fun e => exists tok', e = EList q tok') t.
Proof.
  intros H. revert acc.
  induction H as [n tok e He|n tok results Hp Hlast
                 |n tok results Hp Hmore _ IH]; intros acc.
  - simpl. rewrite He. eexists _, _. split; [reflexivity|].
    split; [reflexivity|]. split; [simpl; lia|]. repeat constructor. eauto.
  - simpl. rewrite Hp, Hlast.
    destruct (collect_images (get (pg_files results) []) acc);
      (eexists _, _; split; [reflexivity|]; split; [reflexivity|];
       split; [simpl; lia|]; repeat constructor; eauto).
  - change (list_loop svc q (S (S n)) tok acc)
      with (match files_list svc q tok with
            | Raise e => Some (Raise e, [EList q tok])
            | Ret results =>
                match collect_images (get (pg_files results) []) acc with
                | Raise e => Some (Raise e, [EList q tok])
                | Ret images' =>
                    if more_pages (pg_nextPageToken results) then
                      match list_loop svc q (S n) (pg_nextPageToken results)
                              images' with
                      | Some (r, t) => Some (r, EList q tok :: t)
                      | None => None
                      end
                    else Some (Ret images', [EList q tok])
                end
            end).
    rewrite Hp, Hmore.
    destruct (collect_images (get (pg_files results) []) acc) as [images|e].
    + destruct (IH images) as (r & t & -> & _ & Hlen & Hall).
      eexists _, _. split; [reflexivity|]. split; [reflexivity|].
      split; [simpl; lia|]. constructor; [eauto|exact Hall].
    + eexists _, _. split; [reflexivity|]. split; [reflexivity|].
      split; [simpl; lia|]. repeat constructor. eauto.
Qed.

(** X6.  The paging loop stops: when the provider's pages for the query
    end (a page without continuation token, or with an empty one, or a
    failing request) within [n] pages after the first, the lister returns
    after at most [n + 1] requests, the first without page token and all
    of them for the same query. *)
Theorem get_image_files_returns svc folder_id n fuel :
  pages_end svc (build_query folder_id) n None ->
  n < fuel ->
  exists r t,
    get_image_files svc fuel folder_id = Some (r, t)
    /\ head t = Some (EList (build_query folder_id) None)
    /\ List.length t <= S n
    /\ Forall (fun e => exists tok, e = EList (build_query folder_id) tok) t.
Proof.
  intros Hend Hfuel. unfold get_image_files.
  destruct (list_loop_returns _ _ _ _ [] Hend)
    as (r & t & H & Hhd & Hlen & Hall).
  exists r, t. split; [|by repeat split].
  eapply list_loop_fuel; [eassumption|lia].
Qed.

Lemma demo_pages_end : pages_end Demo.svc (build_query None) 1 None.
Proof.
  eapply pages_end_next; [reflexivity..|].
  eapply pages_end_last; reflexivity.
Qed.

Lemma get_image_files_returns_witness :
  exists r t,
    get_image_files Demo.svc 7 None = Some (r, t)
    /\ head t = Some (EList (build_query None) None)
    /\ List.length t <= 2
    /\ Forall (fun e => exists tok, e = EList (build_query None) tok) t.
Proof.
  exact (get_image_files_returns Demo.svc None 1 7 demo_pages_end
           ltac:(repeat constructor)).
Defined.

(** ** The driver: failures *)

(** X7.  When authentication fails, [main] prints the error after its
    first message and stops: it reads no input, sends no request, and
    leaves every file other than [token.json] as it was. *)
Theorem auth_failure_aborts lib fuel w e w1 :
  (print "Authenticating with Google Drive...";; authenticate_gdrive lib) w
  = Some (Raise e, w1) ->
  exists w',
    main lib fuel w = Some w'
    /\ w_trace w'
       = w_trace w ++ [EPrint "Authenticating with Google Drive...";
                       EPrint ("Error: " +:+ e)]
    /\ w_stdin w' = w_stdin w
    /\ (forall path, path <> "token.json" ->
                     w_files w' !! path = w_files w !! path).
Proof.
  intros Hauth.
  rewrite bind_eq in Hauth. unfold print, emit in Hauth. simpl in Hauth.
  destruct (authenticate_gdrive_frame lib _ _ _ Hauth)
    as (Hstdin & _ & Htrace & Hfiles).
  simpl in Hstdin, Htrace, Hfiles.
  unfold main, main_body. rewrite bind_eq. unfold print at 1, emit at 1.
  simpl. rewrite bind_eq, Hauth. simpl.
  eexists. split; [reflexivity|]. simpl.
  split; [rewrite Htrace; by rewrite <- app_assoc|]. by split.
Qed.

Lemma auth_failure_aborts_witness :
  exists w',
    main Demo2.lib 3 Demo2.world = Some w'
    /\ w_trace w'
       = [] ++ [EPrint "Authenticating with Google Drive...";
                EPrint ("Error: " +:+ "bad token")]
    /\ w_stdin w' = ["x"]
    /\ (forall path, path <> "token.json" ->
          w_files w' !! path = w_files Demo2.world !! path).
Proof.
  exact (auth_failure_aborts Demo2.lib 3 Demo2.world "bad token"
           (World ["x"] {["token.json" := "garbage"]} ∅
              [EPrint "Authenticating with Google Drive..."])
           eq_refl).
Defined.

(** X8.  When the listing raises, [main] prints the error and stops after
    the requests already made: no output name is asked for, and every file
    other than [token.json] is left as it was, so that neither the report
    nor the JSON file is written. *)
Theorem listing_failure_aborts lib fuel w svc w1 line rest e t :
  (print "Authenticating with Google Drive...";; authenticate_gdrive lib) w
  = Some (Ret svc, w1) ->
  w_stdin w = line :: rest ->
  get_image_files svc fuel (folder_scope line) = Some (Raise e, t) ->
  exists w',
    main lib fuel w = Some w'
    /\ w_trace w'
       = w_trace w
         ++ [EPrint "Authenticating with Google Drive...";
             EInput "Enter folder ID (press Enter for entire Drive): ";
             EPrint "Searching for image files..."]
         ++ t ++ [EPrint ("Error: " +:+ e)]
    /\ w_stdin w' = rest
    /\ (forall path, path <> "token.json" ->
                     w_files w' !! path = w_files w !! path).
Proof.
  intros Hauth Hin Hlist.
  rewrite bind_eq in Hauth. unfold print, emit in Hauth. simpl in Hauth.
  destruct (authenticate_gdrive_frame lib _ _ _ Hauth)
    as (Hstdin & _ & Htrace & Hfiles).
  simpl in Hstdin, Htrace, Hfiles.
  unfold main, main_body. rewrite bind_eq. unfold print at 1, emit at 1.
  simpl. rewrite bind_eq, Hauth.
  rewrite bind_eq. unfold input at 1. rewrite Hstdin, Hin.
  rewrite bind_eq. unfold print at 1, emit at 1. simpl.
  rewrite bind_eq. unfold run_listing at 1. rewrite Hlist.
  simpl. eexists. split; [reflexivity|]. simpl. split.
  - rewrite Htrace. by rewrite <- !app_assoc.
  - by split.
Qed.

Lemma listing_failure_aborts_witness :
  exists w',
    main (Demo.lib Demo2.failing_svc) 3 (Demo.world_of [""; "out.txt"])
    = Some w'
    /\ w_trace w'
       = [] ++ [EPrint "Authenticating with Google Drive...";
                EInput "Enter folder ID (press Enter for entire Drive): ";
                EPrint "Searching for image files..."]
         ++ [EList "trashed=false" None]
         ++ [EPrint ("Error: " +:+ "HttpError 500")]
    /\ w_stdin w' = ["out.txt"]
    /\ (forall path, path <> "token.json" ->
          w_files w' !! path = (∅ : gmap string string) !! path).
Proof.
  exact (listing_failure_aborts (Demo.lib Demo2.failing_svc) 3
           (Demo.world_of [""; "out.txt"]) Demo2.failing_svc
           (World [""; "out.txt"]
                  (<["token.json" := "{}"]> (<["token.json" := ""]> ∅))
                  ∅ [EPrint "Authenticating with Google Drive..."])
           "" ["out.txt"] "HttpError 500" [EList "trashed=false" None]
           eq_refl eq_refl eq_refl).
Defined.

(** ** The authenticator *)

Lemma save_token_run c w :
  save_token c w
  = match w_denied w !! "token.json" with
    | Some e => Some (Raise e, w)
    | None => Some (Ret tt, token_saved c w)
    end.
Proof.
  unfold save_token, open_w, write. rewrite bind_eq.
  destruct (w_denied w !! "token.json"); [reflexivity|].
  unfold token_saved. simpl. rewrite lookup_insert_eq. simpl.
  by rewrite insert_insert_eq.
Qed.

(** Obtaining fresh credentials [o] (by refresh or by the flow), saving
    them and building the service. *)
Lemma fresh_credentials_run lib (o : outcome creds) w :
  ((c' ← of_outcome o; save_token c';; mret c') ≫=
     fun c => of_outcome (build lib c)) w
  = match o with
    | Raise e => Some (Raise e, w)
    | Ret c =>
        match w_denied w !! "token.json" with
        | Some e => Some (Raise e, w)
        | None => Some (build lib c, token_saved c w)
        end
    end.
Proof.
  rewrite !bind_eq. unfold of_outcome at 1.
  destruct o as [c|e]; [|reflexivity].
  rewrite bind_eq, save_token_run.
  destruct (w_denied w !! "token.json"); [reflexivity|].
  unfold of_outcome. simpl. by destruct (build lib c).
Qed.

(** The authenticator, case by case. *)
Lemma authenticate_gdrive_run lib w :
  authenticate_gdrive lib w
  = let fresh (o : outcome creds) :=
      match o with
      | Raise e => Some (Raise e, w)
      | Ret c =>
          match w_denied w !! "token.json" with
          | Some e => Some (Raise e, w)
          | None => Some (build lib c, token_saved c w)
          end
      end in
    let flow := run_local_server lib (w_files w !! "credentials.json") in
    match w_files w !! "token.json" with
    | Some text =>
        match from_authorized_user_file lib text with
        | Raise e => Some (Raise e, w)
        | Ret c =>
            if cr_valid c then Some (build lib c, w)
            else if cr_expired c && Py.truthy_opt (cr_refresh_token c)
            then fresh (refresh lib c)
            else fresh flow
        end
    | None => fresh flow
    end.
Proof.
  unfold authenticate_gdrive. rewrite bind_eq. unfold read_files at 1.
  cbv zeta.
  destruct (w_files w !! "token.json") as [text|].
  - rewrite bind_eq. rewrite bind_eq. unfold of_outcome at 1.
    destruct (from_authorized_user_file lib text) as [c|e]; [|reflexivity].
    change ((mret (Some c) : M (option creds)) w) with (Some (Ret (Some c), w)).
    cbv iota beta.
    destruct (cr_valid c).
    + rewrite bind_eq.
      change ((mret c : M creds) w) with (Some (Ret c, w)).
      cbv iota beta. unfold of_outcome. by destruct (build lib c).
    + destruct (cr_expired c && Py.truthy_opt (cr_refresh_token c));
        apply fresh_credentials_run.
  - rewrite bind_eq.
    change ((mret None : M (option creds)) w)
      with (Some (Ret (@None creds), w)).
    cbv iota beta. apply fresh_credentials_run.
Qed.

(** X9.  When the authenticator returns a service, the service is built
    from credentials [c] that are either the valid credentials parsed from
    the stored token, in which case nothing is written, or credentials
    just obtained by a refresh or by the interactive flow, in which case
    [token.json] holds exactly their JSON text and nothing else
    changed. *)
Theorem authenticate_gdrive_returns lib w svc w1 :
  authenticate_gdrive lib w = Some (Ret svc, w1) ->
  exists c,
    build lib c = Ret svc
    /\ ((w1 = w
         /\ exists text,
              w_files w !! "token.json" = Some text
              /\ from_authorized_user_file lib text = Ret c
              /\ cr_valid c = true)
        \/ (w1 = token_saved c w
            /\ w_denied w !! "token.json" = None
            /\ ((exists c0, refresh lib c0 = Ret c)
                \/ run_local_server lib (w_files w !! "credentials.json")
                   = Ret c))).
Proof.
  rewrite authenticate_gdrive_run. cbv zeta.
  assert (forall o : outcome creds,
            match o with
            | Raise e => Some (Raise e, w)
            | Ret c =>
                match w_denied w !! "token.json" with
                | Some e => Some (Raise e, w)
                | None => Some (build lib c, token_saved c w)
                end
            end = Some (Ret svc, w1) ->
            exists c, o = Ret c /\ build lib c = Ret svc
                      /\ w1 = token_saved c w
                      /\ w_denied w !! "token.json" = None) as Hfresh.
  { intros [c|e] H; [|discriminate].
    destruct (w_denied w !! "token.json"); [discriminate|].
    injection H as H <-. eauto. }
  destruct (w_files w !! "token.json") as [text|] eqn:Htok.
  - destruct (from_authorized_user_file lib text) as [c|e] eqn:Hparse;
      [|discriminate].
    destruct (cr_valid c) eqn:Hvalid.
    + intros [= Hb <-]. exists c. split; [exact Hb|]. left. eauto 10.
    + destruct (cr_expired c && Py.truthy_opt (cr_refresh_token c));
        intros H; destruct (Hfresh _ H) as (c' & Ho & Hb & -> & Hd);
        exists c'; (split; [exact Hb|]); right; eauto 10.
  - intros H. destruct (Hfresh _ H) as (c' & Ho & Hb & -> & Hd).
    exists c'. split; [exact Hb|]. right. eauto 10.
Qed.

Lemma authenticate_gdrive_returns_witness :
  exists c,
    build (Demo.lib Demo.svc) c = Ret Demo.svc
    /\ ((token_saved Demo.token (Demo.world_of []) = Demo.world_of []
         /\ exists text,
              w_files (Demo.world_of []) !! "token.json" = Some text
              /\ from_authorized_user_file (Demo.lib Demo.svc) text = Ret c
              /\ cr_valid c = true)
        \/ (token_saved Demo.token (Demo.world_of [])
            = token_saved c (Demo.world_of [])
            /\ w_denied (Demo.world_of []) !! "token.json" = None
            /\ ((exists c0, refresh (Demo.lib Demo.svc) c0 = Ret c)
                \/ run_local_server (Demo.lib Demo.svc)
                     (w_files (Demo.world_of []) !! "credentials.json")
                   = Ret c))).
Proof.
  apply (authenticate_gdrive_returns (Demo.lib Demo.svc) (Demo.world_of [])
           Demo.svc (token_saved Demo.token (Demo.world_of []))).
  rewrite authenticate_gdrive_run. reflexivity.
Defined.

(** X10.  When the authenticator raises, either [build] raised, or the
    error is that of parsing the stored token, of the refresh, of the
    interactive flow or of opening [token.json] for writing, and in these
    four cases nothing was written.  In particular a stored token that
    cannot be parsed is an error: no new authorization is attempted. *)
Theorem authenticate_gdrive_raises lib w e w1 :
  authenticate_gdrive lib w = Some (Raise e, w1) ->
  (exists c, build lib c = Raise e)
  \/ (w1 = w
      /\ ((exists text, w_files w !! "token.json" = Some text
                        /\ from_authorized_user_file lib text = Raise e)
          \/ (exists c0, refresh lib c0 = Raise e)
          \/ run_local_server lib (w_files w !! "credentials.json") = Raise e
          \/ w_denied w !! "token.json" = Some e)).
Proof.
  rewrite authenticate_gdrive_run. cbv zeta.
  assert (forall o : outcome creds,
            match o with
            | Raise e => Some (Raise e, w)
            | Ret c =>
                match w_denied w !! "token.json" with
                | Some e => Some (Raise e, w)
                | None => Some (build lib c, token_saved c w)
                end
            end = Some (Raise e, w1) ->
            (exists c, build lib c = Raise e)
            \/ (w1 = w /\ (o = Raise e \/ w_denied w !! "token.json" = Some e)))
    as Hfresh.
  { intros [c|e'] H.
    - destruct (w_denied w !! "token.json") as [e'|].
      + injection H as -> <-. right. auto.
      + injection H as H _. left. eauto.
    - injection H as -> <-. right. auto. }
  destruct (w_files w !! "token.json") as [text|] eqn:Htok.
  - destruct (from_authorized_user_file lib text) as [c|e'] eqn:Hparse.
    + destruct (cr_valid c).
      * intros [= H _]. left. eauto.
      * destruct (cr_expired c && Py.truthy_opt (cr_refresh_token c));
          intros H;
          (destruct (Hfresh _ H) as [?|(-> & [Ho|Hd])];
           [left; assumption|right; eauto 10..]).
    + intros [= -> <-]. right. eauto 10.
  - intros H. destruct (Hfresh _ H) as [?|(-> & [Ho|Hd])];
      [left; assumption|right; eauto 10..].
Qed.

Lemma authenticate_gdrive_raises_witness :
  (exists c, build Demo2.lib c = Raise "bad token")
  \/ (Demo2.world = Demo2.world
      /\ ((exists text, w_files Demo2.world !! "token.json" = Some text
                        /\ from_authorized_user_file Demo2.lib text
                           = Raise "bad token")
          \/ (exists c0, refresh Demo2.lib c0 = Raise "bad token")
          \/ run_local_server Demo2.lib
               (w_files Demo2.world !! "credentials.json")
             = Raise "bad token"
          \/ w_denied Demo2.world !! "token.json" = Some "bad token")).
Proof.
  apply (authenticate_gdrive_raises Demo2.lib Demo2.world "bad token"
           Demo2.world).
  rewrite authenticate_gdrive_run. reflexivity.
Defined.

(** X11.  The interactive flow is not used when the stored token parses
    to credentials that are valid, or that are expired and carry a refresh
    token: the authenticator then behaves the same whatever the flow would
    do. *)
Theorem flow_not_used lib flow w text c :
  w_files w !! "token.json" = Some text ->
  from_authorized_user_file lib text = Ret c ->
  cr_valid c = true
  \/ (cr_expired c = true /\ Py.truthy_opt (cr_refresh_token c) = true) ->
  authenticate_gdrive (with_flow lib flow) w = authenticate_gdrive lib w.
Proof.
  intros Htok Hparse Hc. rewrite !authenticate_gdrive_run. cbv zeta.
  simpl. rewrite Htok, Hparse.
  destruct (cr_valid c); [reflexivity|].
  destruct Hc as [[=]|[-> ->]]. reflexivity.
Qed.

Lemma flow_not_used_witness :
  authenticate_gdrive
    (with_flow Demo2.good_lib (fun _ => Raise "no browser")) Demo2.world
  = authenticate_gdrive Demo2.good_lib Demo2.world.
Proof.
  apply (flow_not_used Demo2.good_lib (fun _ => Raise "no browser")
           Demo2.world "garbage" Demo.token);
    [reflexivity|reflexivity|left; reflexivity].
Defined.

(** ** The name and the content of the JSON file *)

Lemma prefix_txt_head s :
  String.prefix ".txt" s = true ->
  exists rest, s = String "." (String "t" rest).
Proof.
  intros H. apply prefix_correct in H.
  destruct s as [|a [|b rest]]; try discriminate.
  simpl in H. injection H as -> -> _. eauto.
Qed.

Lemma replace_present s :
  occurs ".txt" s = true -> json_file_of s <> s.
Proof.
  unfold json_file_of, Py.replace.
  induction s as [|c s IH]; intros H; [discriminate|].
  change (String.prefix ".txt" (String c s) || occurs ".txt" s = true) in H.
  change (Py.replace_from ".txt" ".json" (String c s) 0)
    with (if String.prefix ".txt" (String c s) then
            ".json" +:+ Py.replace_from ".txt" ".json" s 3
          else String c (Py.replace_from ".txt" ".json" s 0)).
  destruct (String.prefix ".txt" (String c s)) eqn:Hp.
  - destruct (prefix_txt_head _ Hp) as [rest ->]. discriminate.
  - simpl in H. intros [= Heq]. by apply IH.
Qed.

(** X12.  The JSON file has the same name as the text report exactly when
    the output name has no ".txt" in it; in every other case the two names
    differ. *)
Theorem json_file_same_iff output_file :
  json_file_of output_file = output_file <-> occurs ".txt" output_file = false.
Proof.
  split.
  - intros Heq. destruct (occurs ".txt" output_file) eqn:E; [|reflexivity].
    by apply replace_present in E.
  - apply json_file_of_absent.
Qed.

(** After a "." a name that does not start with "txt" still does not
    when ".txt" is appended to it. *)
Lemma substring_0_0 s : substring 0 0 s = "".
Proof. by destruct s. Qed.

Lemma prefix_txt_app s :
  String.prefix ".txt" (String "." s) = false ->
  String.prefix ".txt" (String "." s +:+ ".txt") = false.
Proof.
  intros H.
  destruct (String.prefix ".txt" (String "." s +:+ ".txt")) eqn:E;
    [|reflexivity].
  rewrite <- H. symmetry. apply prefix_correct. apply prefix_correct in E.
  destruct s as [|a [|b [|d s]]];
    rewrite ?string_app_cons, ?string_app_nil_l in E; simpl in E;
    try discriminate.
  injection E as -> -> -> _. simpl. by rewrite substring_0_0.
Qed.

Lemma replace_txt_suffix stem :
  occurs ".txt" stem = false ->
  Py.replace_from ".txt" ".json" (stem +:+ ".txt") 0 = stem +:+ ".json".
Proof.
  induction stem as [|c stem IH]; intros H; [reflexivity|].
  change (String.prefix ".txt" (String c stem) || occurs ".txt" stem = false)
    in H.
  apply orb_false_elim in H as [Hp Hrest].
  rewrite !string_app_cons.
  change (Py.replace_from ".txt" ".json" (String c (stem +:+ ".txt")) 0)
    with (if String.prefix ".txt" (String c (stem +:+ ".txt")) then
            ".json" +:+ Py.replace_from ".txt" ".json" (stem +:+ ".txt") 3
          else String c (Py.replace_from ".txt" ".json" (stem +:+ ".txt") 0)).
  assert (String.prefix ".txt" (String c (stem +:+ ".txt")) = false) as ->.
  { destruct (ascii_dec "." c) as [<-|Hne].
    - exact (prefix_txt_app _ Hp).
    - change (String.prefix ".txt" (String c (stem +:+ ".txt")))
        with (if ascii_dec "." c then String.prefix "txt" (stem +:+ ".txt")
              else false).
      by destruct (ascii_dec "." c). }
  by rewrite IH.
Qed.

(** X13.  For an output name made of a stem without ".txt" followed by
    ".txt", the JSON file is the stem followed by ".json". *)
Theorem json_file_of_txt stem :
  occurs ".txt" stem = false ->
  json_file_of (stem +:+ ".txt") = stem +:+ ".json".
Proof. apply replace_txt_suffix. Qed.

Lemma json_file_of_txt_witness :
  json_file_of ("my.photos" +:+ ".txt") = "my.photos" +:+ ".json".
Proof. apply (json_file_of_txt "my.photos"). reflexivity. Defined.

Lemma json_file_same_iff_witness :
  json_file_of "out.text" = "out.text".
Proof. apply (proj2 (json_file_same_iff "out.text")). reflexivity. Defined.

Lemma image_to_json_inj img1 img2 :
  image_to_json img1 = image_to_json img2 -> img1 = img2.
Proof.
  destruct img1 as [n1 i1 v1 d1 ps1], img2 as [n2 i2 v2 d2 ps2].
  unfold image_to_json. simpl.
  intros [= -> -> -> -> Hp]. f_equal.
  revert ps2 Hp.
  induction ps1 as [|p ps IH]; intros [|q qs] Hp;
    try discriminate; [reflexivity|].
  injection Hp as -> Hp. f_equal. by apply IH.
Qed.

(** X14.  The JSON document written for a listing determines the listing:
    two listings with the same document are equal, name, id, links and
    parents of every image included. *)
Theorem json_document_inj images1 images2 :
  Json.dumps (images_to_json images1) = Json.dumps (images_to_json images2) ->
  images1 = images2.
Proof.
  intros H. apply (f_equal Json.loads) in H. rewrite !loads_dumps in H.
  injection H as H. unfold images_to_json in H.
  revert images2 H.
  induction images1 as [|a l IH]; intros [|b l'] H; try discriminate;
    [reflexivity|].
  pose proof (f_equal (hd (JString "")) H) as Ha.
  pose proof (f_equal tail H) as Hl.
  f_equal; [apply image_to_json_inj; exact Ha|apply IH; exact Hl].
Qed.

Lemma json_document_inj_witness : [Demo.image1] = [Demo.image1].
Proof. apply json_document_inj. reflexivity. Defined.

(** ** Which names are image names *)

Lemma lower_app (a b : string) :
  Py.lower (a +:+ b) = Py.lower a +:+ Py.lower b.
Proof.
  induction a as [|c a IH]; [reflexivity|].
  rewrite string_app_cons. simpl. by rewrite IH, string_app_cons.
Qed.

Lemma lower_char_dot c : Ascii.eqb (Py.lower_char c) "." = Ascii.eqb c ".".
Proof. destruct c as [[] [] [] [] [] [] [] []]; reflexivity. Qed.

Lemma lower_char_slash c : Ascii.eqb (Py.lower_char c) "/" = Ascii.eqb c "/".
Proof. destruct c as [[] [] [] [] [] [] [] []]; reflexivity. Qed.

Lemma contains_lower d s :
  (forall c, Ascii.eqb (Py.lower_char c) d = Ascii.eqb c d) ->
  contains_char d (Py.lower s) = contains_char d s.
Proof.
  intros Hd. induction s as [|c s IH]; [reflexivity|].
  simpl. by rewrite Hd, IH.
Qed.

Lemma contains_app d (a b : string) :
  contains_char d (a +:+ b) = contains_char d a || contains_char d b.
Proof.
  induction a as [|c a IH]; [reflexivity|].
  rewrite string_app_cons. simpl. by rewrite IH, orb_assoc.
Qed.

Lemma rfind_from_absent c s i last :
  contains_char c s = false -> Py.rfind_from c s i last = last.
Proof.
  revert i. induction s as [|a s IH]; intros i H; [reflexivity|].
  simpl in H. apply orb_false_elim in H as [Ha Hs].
  simpl. rewrite Ha. by apply IH.
Qed.

Lemma rfind_from_app c (s1 s2 : string) i last :
  Py.rfind_from c (s1 +:+ s2) i last
  = Py.rfind_from c s2 (i + Z.of_nat (String.length s1))
      (Py.rfind_from c s1 i last).
Proof.
  revert i last. induction s1 as [|a s1 IH]; intros i last.
  - simpl. by rewrite string_app_nil_l, Z.add_0_r.
  - rewrite string_app_cons. simpl Py.rfind_from. rewrite IH.
    f_equal. simpl String.length. lia.
Qed.

(** The last index is the default or an index of the string. *)
Lemma rfind_from_range c s i last :
  Py.rfind_from c s i last = last \/ (i <= Py.rfind_from c s i last)%Z.
Proof.
  revert i last. induction s as [|a s IH]; intros i last; [by left|].
  simpl. destruct (Ascii.eqb a c).
  - right. destruct (IH (i + 1)%Z i) as [->|H]; lia.
  - destruct (IH (i + 1)%Z last) as [->|H]; [by left|right; lia].
Qed.

Lemma substring_prefix (a b : string) :
  substring 0 (String.length a) (a +:+ b) = a.
Proof.
  induction a as [|c a IH]; [apply substring_0_0|].
  rewrite string_app_cons. simpl. by rewrite IH.
Qed.

Lemma substring_whole (s : string) : substring 0 (String.length s) s = s.
Proof. induction s as [|c s IH]; [reflexivity|]. simpl. by rewrite IH. Qed.

Lemma substring_suffix (a b : string) :
  substring (String.length a)
    (String.length (a +:+ b) - String.length a) (a +:+ b) = b.
Proof.
  induction a as [|c a IH].
  - rewrite string_app_nil_l. simpl. rewrite Nat.sub_0_r.
    apply substring_whole.
  - rewrite string_app_cons. simpl. exact IH.
Qed.

(** [root + ext == p], as the documentation of [splitext] says. *)
Lemma substring_split (p : string) k :
  substring 0 k p +:+ substring k (String.length p - k) p = p.
Proof.
  revert k. induction p as [|c p IH]; intros k.
  - by destruct k.
  - destruct k as [|k].
    + simpl. by rewrite substring_whole.
    + simpl. by rewrite string_app_cons, IH.
Qed.

Lemma splitext_concat p : (Py.splitext p).1 +:+ (Py.splitext p).2 = p.
Proof.
  unfold Py.splitext.
  destruct (Py.rfind "/" p <? Py.rfind "." p)%Z;
    [|apply string_app_nil_r].
  destruct (Py.has_non_dot _ _ _); [|apply string_app_nil_r].
  apply substring_split.
Qed.

(** The split of a name made of a stem and a dotted extension. *)
Lemma splitext_stem_ext c0 stem letters :
  Ascii.eqb c0 "." = false ->
  contains_char "/" (String c0 stem) = false ->
  contains_char "." letters = false ->
  contains_char "/" letters = false ->
  Py.splitext (String c0 stem +:+ String "." letters)
  = (String c0 stem, String "." letters).
Proof.
  intros Hc0 Hslash Hdot Hsl. unfold Py.splitext.
  assert (Py.rfind "/" (String c0 stem +:+ String "." letters) = (-1)%Z)
    as ->.
  { unfold Py.rfind. apply rfind_from_absent.
    rewrite contains_app, Hslash. simpl. exact Hsl. }
  assert (Py.rfind "." (String c0 stem +:+ String "." letters)
          = Z.of_nat (String.length (String c0 stem))) as ->.
  { unfold Py.rfind. rewrite rfind_from_app.
    change (Py.rfind_from "." (String "." letters) ?i ?l)
      with (Py.rfind_from "." letters (i + 1)%Z i).
    by rewrite rfind_from_absent. }
  assert ((-1 <? Z.of_nat (String.length (String c0 stem)))%Z = true) as ->
    by (apply Z.ltb_lt; lia).
  rewrite Nat2Z.id. change (Z.to_nat (-1 + 1)) with 0. rewrite Nat.sub_0_r.
  assert (Py.has_non_dot (String c0 stem +:+ String "." letters) 0
            (String.length (String c0 stem)) = true) as ->.
  { rewrite string_app_cons. simpl. unfold Py.not_dot_at. simpl.
    by rewrite substring_0_0, Hc0. }
  by rewrite substring_prefix, substring_suffix.
Qed.

(** X17.  A name made of a stem that does not start with "." and holds no
    "/", followed by one of the ten extensions written in any case, is an
    image name. *)
Theorem image_name_accepted c0 stem ext :
  c0 <> "."%char ->
  contains_char "/" (String c0 stem) = false ->
  Py.lower ext ∈ IMAGE_EXTENSIONS ->
  is_image_name (String c0 stem +:+ ext) = true.
Proof.
  intros Hc0 Hslash Hext.
  assert (exists letters,
            Py.lower ext = String "." letters
            /\ contains_char "." letters = false
            /\ contains_char "/" letters = false) as (letters & Hl & Hd & Hs).
  { unfold IMAGE_EXTENSIONS in Hext. set_unfold in Hext.
    destruct_or!; rewrite Hext; eexists; (split; [reflexivity|]);
      split; reflexivity. }
  unfold is_image_name, file_ext. apply bool_decide_eq_true.
  rewrite lower_app, Hl. simpl Py.lower.
  rewrite splitext_stem_ext; [simpl; by rewrite <- Hl|..|exact Hd|exact Hs].
  - rewrite lower_char_dot. by apply Ascii.eqb_neq.
  - change (String (Py.lower_char c0) (Py.lower stem))
      with (Py.lower (String c0 stem)).
    rewrite contains_lower; [exact Hslash|apply lower_char_slash].
Qed.

Lemma image_name_accepted_witness :
  is_image_name ("Holiday.2024" +:+ ".JpEg") = true.
Proof.
  apply (image_name_accepted "H" "oliday.2024" ".JpEg");
    [discriminate|reflexivity|].
  apply (proj1 (bool_decide_eq_true _)). reflexivity.
Defined.

(** X18.  An image name, in lower case, ends with one of the ten
    extensions. *)
Theorem image_name_suffix name :
  is_image_name name = true ->
  exists stem ext,
    ext ∈ IMAGE_EXTENSIONS /\ Py.lower name = stem +:+ ext.
Proof.
  unfold is_image_name, file_ext. intros H.
  apply bool_decide_eq_true in H.
  exists (Py.splitext (Py.lower name)).1, (Py.splitext (Py.lower name)).2.
  split; [exact H|]. symmetry. apply splitext_concat.
Qed.

Lemma image_name_suffix_witness :
  exists stem ext,
    ext ∈ IMAGE_EXTENSIONS /\ Py.lower "IMG.JPG" = stem +:+ ext.
Proof. apply image_name_suffix. reflexivity. Defined.

Lemma empty_not_extension : "" ∉ IMAGE_EXTENSIONS.
Proof. apply (proj1 (bool_decide_eq_false _)). reflexivity. Qed.

(** X19.  A name without any "." is not an image name, and neither is a
    name whose only "." is its first character: a file named ".png" is
    left out of the listing. *)
Theorem dotless_name_rejected name :
  contains_char "." name = false ->
  is_image_name name = false /\ is_image_name ("." +:+ name) = false.
Proof.
  intros Hdot.
  assert (contains_char "." (Py.lower name) = false) as Hlow
    by (rewrite contains_lower; [exact Hdot|apply lower_char_dot]).
  unfold is_image_name, file_ext. split; apply bool_decide_eq_false.
  - unfold Py.splitext.
    assert (Py.rfind "." (Py.lower name) = (-1)%Z) as ->
      by (apply rfind_from_absent; exact Hlow).
    assert ((Py.rfind "/" (Py.lower name) <? -1)%Z = false) as ->.
    { apply Z.ltb_ge. unfold Py.rfind.
      destruct (rfind_from_range "/" (Py.lower name) 0 (-1)) as [->|H]; lia. }
    exact empty_not_extension.
  - rewrite lower_app. change (Py.lower ".") with ".".
    rewrite string_app_cons, string_app_nil_l. unfold Py.splitext.
    assert (Py.rfind "." (String "." (Py.lower name)) = 0%Z) as ->.
    { unfold Py.rfind. simpl. by apply rfind_from_absent. }
    unfold Py.rfind. simpl Py.rfind_from.
    destruct (rfind_from_range "/" (Py.lower name) (0 + 1) (-1)) as [->|H].
    + simpl. exact empty_not_extension.
    + assert ((Py.rfind_from "/" (Py.lower name) (0 + 1) (-1) <? 0)%Z = false)
        as -> by (apply Z.ltb_ge; lia).
      exact empty_not_extension.
Qed.

Lemma dotless_name_rejected_witness :
  is_image_name "png" = false /\ is_image_name ("." +:+ "png") = false.
Proof. apply (dotless_name_rejected "png"). reflexivity. Defined.

(** ** The driver: the files of a run *)

Lemma agree_off_refl P w : agree_off P w w.
Proof. by intros path _. Qed.

Lemma agree_off_trans P w w1 w2 :
  agree_off P w w1 -> agree_off P w1 w2 -> agree_off P w w2.
Proof. intros H1 H2 path Hp. by rewrite H2, H1. Qed.

Lemma agree_off_same P w w1 :
  w_files w1 = w_files w -> agree_off P w w1.
Proof. intros H path _. by rewrite H. Qed.

Lemma print_frame line w r w1 :
  print line w = Some (r, w1) ->
  w_files w1 = w_files w /\ w_stdin w1 = w_stdin w.
Proof. by intros [= _ <-]. Qed.

Lemma input_frame prompt w r w1 :
  input prompt w = Some (r, w1) ->
  w_files w1 = w_files w
  /\ forall line, r = Ret line -> w_stdin w = line :: w_stdin w1.
Proof.
  unfold input. destruct (w_stdin w) as [|l rest]; intros [= <- <-];
    (split; [reflexivity|]); [discriminate|].
  by intros line [= <-].
Qed.

Lemma run_listing_frame svc fuel folder_id w r w1 :
  run_listing svc fuel folder_id w = Some (r, w1) ->
  w_files w1 = w_files w /\ w_stdin w1 = w_stdin w.
Proof.
  unfold run_listing.
  destruct (get_image_files svc fuel folder_id) as [[o t]|]; [|discriminate].
  rewrite bind_eq. simpl. destruct o; by intros [= _ <-].
Qed.

Lemma open_w_frame P path w r w1 :
  P path -> open_w path w = Some (r, w1) -> agree_off P w w1.
Proof.
  intros HP. unfold open_w.
  destruct (w_denied w !! path); intros [= _ <-];
    [apply agree_off_refl|].
  intros p Hp. simpl. rewrite lookup_insert_ne; [reflexivity|].
  by intros <-.
Qed.

Lemma write_frame P path text w r w1 :
  P path -> write path text w = Some (r, w1) -> agree_off P w w1.
Proof.
  intros HP [= _ <-] p Hp. simpl. rewrite lookup_insert_ne; [reflexivity|].
  by intros <-.
Qed.

(** The loop of the report writer never raises; it appends its lines to
    the output file and touches no other file. *)
Lemma write_images_inv svc fuel out incl images c w r w1 :
  write_images svc fuel out incl images c w = Some (r, w1) ->
  (exists c', r = Ret c')
  /\ (forall path, path <> out -> w_files w1 !! path = w_files w !! path)
  /\ exists lines,
       get (w_files w1 !! out) "" = get (w_files w !! out) "" +:+ cat lines
       /\ Forall2 (fun img line =>
                     exists full_path,
                       line = report_line incl full_path img) images lines.
Proof.
  revert c w. induction images as [|img images IH]; intros c w H.
  - injection H as <- <-. split; [eauto|]. split; [done|].
    exists []. split; [simpl; by rewrite string_app_nil_r|constructor].
  - simpl in H.
    destruct (image_full_path svc fuel img c) as [[[full_path c1] t]|];
      [|discriminate].
    rewrite !bind_eq in H. simpl in H.
    destruct (IH _ _ H) as (Hret & Hoff & lines & Hcontent & Hlines).
    split; [exact Hret|]. split.
    + intros path Hp. rewrite Hoff by assumption. simpl.
      by rewrite lookup_insert_ne.
    + exists (report_line incl full_path img :: lines). split.
      * rewrite Hcontent. simpl. rewrite lookup_insert_eq. simpl.
        by rewrite string_app_assoc.
      * constructor; [eauto|exact Hlines].
Qed.

Lemma save_image_paths_inv images svc fuel out incl w r w1 :
  save_image_paths images svc fuel out incl w = Some (r, w1) ->
  (forall path, path <> out -> w_files w1 !! path = w_files w !! path)
  /\ (r = Ret tt ->
      exists lines,
        w_files w1 !! out
        = Some (report_header (List.length images) +:+ cat lines)
        /\ Forall2 (fun img line =>
                      exists full_path,
                        line = report_line incl full_path img) images lines).
Proof.
  unfold save_image_paths. intros H.
  apply bind_inv in H as [(e & Hopen & ->)|([] & w2 & Hopen & H)].
  { unfold open_w in Hopen. destruct (w_denied w !! out); [|discriminate].
    injection Hopen as _ <-. split; [done|discriminate]. }
  unfold open_w in Hopen. destruct (w_denied w !! out); [discriminate|].
  injection Hopen as <-.
  apply bind_inv in H as [(e & Hw & ->)|([] & w3 & Hw & H)];
    [discriminate|].
  injection Hw as <-.
  apply bind_inv in H as [(e & Hloop & ->)|(c' & w4 & Hloop & H)].
  { by destruct (write_images_inv _ _ _ _ _ _ _ _ _ Hloop) as [[? [=]] _]. }
  destruct (write_images_inv _ _ _ _ _ _ _ _ _ Hloop)
    as (_ & Hoff & lines & Hcontent & Hlines).
  injection H as <- <-. simpl in *. split.
  - intros path Hp. rewrite Hoff by assumption.
    by rewrite !lookup_insert_ne.
  - intros _. exists lines. split; [|exact Hlines].
    rewrite lookup_insert_eq in Hcontent. simpl in Hcontent.
    rewrite lookup_insert_eq in Hcontent. simpl in Hcontent.
    destruct (w_files w4 !! out) as [content|]; simpl in Hcontent;
      [by rewrite Hcontent|].
    exfalso. revert Hcontent. unfold report_header.
    by rewrite !string_app_cons.
Qed.

Lemma authenticate_gdrive_agree P lib w r w1 :
  P "token.json" ->
  authenticate_gdrive lib w = Some (r, w1) ->
  agree_off P w w1 /\ w_stdin w1 = w_stdin w.
Proof.
  intros HP H.
  destruct (authenticate_gdrive_frame lib _ _ _ H) as (Hs & _ & _ & Hf).
  split; [|exact Hs]. intros path Hp. apply Hf. by intros ->.
Qed.

Lemma main_body_frame lib fuel w r w' :
  main_body lib fuel w = Some (r, w') -> agree_off (output_files w) w w'.
Proof.
  unfold main_body. intros H.
  apply bind_inv in H as [(e & H0 & ->)|([] & w0 & H0 & H)];
    apply print_frame in H0 as [Hf0 Hs0];
    [by apply agree_off_same|].
  assert (agree_off (output_files w) w w0) as Hacc by by apply agree_off_same.
  apply bind_inv in H as [(e & H1 & ->)|(svc & w1 & H1 & H)];
    apply (authenticate_gdrive_agree (output_files w)) in H1 as [Hf1 Hs1];
    try (by left);
    [by apply (agree_off_trans _ _ w0)|].
  pose proof (agree_off_trans _ _ _ _ Hacc Hf1) as Hacc1. clear Hacc Hf1.
  apply bind_inv in H as [(e & H2 & ->)|(line & w2 & H2 & H)];
    apply input_frame in H2 as [Hf2 Hs2];
    [intros path Hp; rewrite Hf2; by apply Hacc1|].
  specialize (Hs2 line eq_refl). cbv zeta in H.
  apply bind_inv in H as [(e & H3 & ->)|([] & w3 & H3 & H)];
    apply print_frame in H3 as [Hf3 Hs3];
    [intros path Hp; rewrite Hf3, Hf2; by apply Hacc1|].
  apply bind_inv in H as [(e & H4 & ->)|(images & w4 & H4 & H)];
    apply run_listing_frame in H4 as [Hf4 Hs4];
    [intros path Hp; rewrite Hf4, Hf3, Hf2; by apply Hacc1|].
  assert (agree_off (output_files w) w w4) as Hacc4.
  { intros path Hp. rewrite Hf4, Hf3, Hf2. by apply Hacc1. }
  clear Hacc1 Hf2 Hf3 Hf4.
  destruct images as [|img images].
  { apply print_frame in H as [Hf _]. intros path Hp. rewrite Hf.
    by apply Hacc4. }
  apply bind_inv in H as [(e & H5 & ->)|([] & w5 & H5 & H)];
    apply print_frame in H5 as [Hf5 Hs5];
    [intros path Hp; rewrite Hf5; by apply Hacc4|].
  apply bind_inv in H as [(e & H6 & ->)|(line1 & w6 & H6 & H)];
    apply input_frame in H6 as [Hf6 Hs6];
    [intros path Hp; rewrite Hf6, Hf5; by apply Hacc4|].
  specialize (Hs6 line1 eq_refl).
  assert (nth 1 (w_stdin w) "" = line1) as Hline1.
  { rewrite <- Hs0, <- Hs1, Hs2. simpl.
    rewrite <- Hs3, <- Hs4, <- Hs5, Hs6. reflexivity. }
  apply bind_inv in H as [(e & H7 & ->)|(line2 & w7 & H7 & H)];
    apply input_frame in H7 as [Hf7 _];
    [intros path Hp; rewrite Hf7, Hf6, Hf5; by apply Hacc4|].
  cbv zeta in H.
  assert (agree_off (output_files w) w w7) as Hacc7.
  { intros path Hp. rewrite Hf7, Hf6, Hf5. by apply Hacc4. }
  clear Hacc4 Hf5 Hf6 Hf7.
  change (if Py.truthy (Py.strip line1) then Py.strip line1
          else "image_paths.txt") with (output_name line1) in H.
  assert (output_files w (output_name line1)) as Hout
    by (right; left; by rewrite Hline1).
  assert (output_files w (json_file_of (output_name line1))) as Hjson
    by (right; right; by rewrite Hline1).
  assert (forall wa wb, agree_off (output_files w) w wa ->
            (forall path, path <> output_name line1 ->
                          w_files wb !! path = w_files wa !! path) ->
            agree_off (output_files w) w wb) as Hstep.
  { intros wa wb Ha Hb path Hp. rewrite Hb; [by apply Ha|].
    intros ->. by apply Hp. }
  apply bind_inv in H as [(e & H8 & ->)|([] & w8 & H8 & H)];
    apply save_image_paths_inv in H8 as [Hf8 _];
    [by apply (Hstep w7)|].
  pose proof (Hstep _ _ Hacc7 Hf8) as Hacc8. clear Hacc7 Hf8 Hstep.
  apply bind_inv in H as [(e & H9 & ->)|([] & w9 & H9 & H)];
    apply (open_w_frame (output_files w)) in H9; try exact Hjson;
    [by apply (agree_off_trans _ _ w8)|].
  pose proof (agree_off_trans _ _ _ _ Hacc8 H9) as Hacc9. clear Hacc8 H9.
  apply bind_inv in H as [(e & H10 & ->)|([] & w10 & H10 & H)];
    apply (write_frame (output_files w)) in H10; try exact Hjson;
    [by apply (agree_off_trans _ _ w9)|].
  pose proof (agree_off_trans _ _ _ _ Hacc9 H10) as Hacc10. clear Hacc9 H10.
  apply print_frame in H as [Hf _]. intros path Hp. rewrite Hf.
  by apply Hacc10.
Qed.

(** X15.  Whatever happens in a run, [main] changes no file other than
    [token.json], the output file named on the second line of input (or
    [image_paths.txt] when that line is blank) and the JSON file derived
    from that name; files are told apart by their names, and the name
    typed is taken without the white space around it. *)
Theorem main_touches_three_files lib fuel w w' path :
  main lib fuel w = Some w' ->
  path <> "token.json" ->
  path <> output_name (nth 1 (w_stdin w) "") ->
  path <> json_file_of (output_name (nth 1 (w_stdin w) "")) ->
  w_files w' !! path = w_files w !! path.
Proof.
  unfold main. intros H Ht Ho Hj.
  assert (~ output_files w path) as Hp by (intros [?|[?|?]]; contradiction).
  destruct (main_body lib fuel w) as [[[[]|e] wb]|] eqn:Hbody;
    [| |discriminate].
  - injection H as <-. by apply (main_body_frame _ _ _ _ _ Hbody).
  - simpl in H. injection H as <-. simpl.
    by apply (main_body_frame _ _ _ _ _ Hbody).
Qed.

Lemma main_touches_three_files_witness :
  exists w',
    main (Demo.lib Demo.svc) 5
         (World [""; "out.txt"; "n"] {["notes.md" := "keep"]} ∅ [])
    = Some w'
    /\ w_files w' !! "notes.md" = Some "keep".
Proof.
  destruct (main (Demo.lib Demo.svc) 5
              (World [""; "out.txt"; "n"] {["notes.md" := "keep"]} ∅ []))
    as [w'|] eqn:Hmain; [|vm_compute in Hmain; discriminate].
  exists w'. split; [reflexivity|].
  rewrite (main_touches_three_files _ _ _ _ "notes.md" Hmain);
    [reflexivity|discriminate..].
Defined.

(** The end of a run that lists images and raises nothing: the second
    and third lines of input give the output name and the link option, the
    report is written, then the JSON file. *)
Lemma main_body_success lib fuel w r w' :
  main_body lib fuel w = Some (r, w') ->
  (exists e, r = Raise e)
  \/ last (w_trace w') = Some (EPrint "No image files found.")
  \/ exists svc w1 images t lines,
       (print "Authenticating with Google Drive...";;
        authenticate_gdrive lib) w = Some (Ret svc, w1)
       /\ get_image_files svc fuel (folder_scope (nth 0 (w_stdin w) ""))
          = Some (Ret images, t)
       /\ last (w_trace w')
          = Some (EPrint ("Also saved JSON data to "
                          +:+ json_file_of
                                (output_name (nth 1 (w_stdin w) ""))))
       /\ (json_file_of (output_name (nth 1 (w_stdin w) ""))
           <> output_name (nth 1 (w_stdin w) "") ->
           w_files w' !! output_name (nth 1 (w_stdin w) "")
           = Some (report_header (List.length images) +:+ cat lines))
       /\ Forall2 (fun img line =>
                     exists full_path,
                       line = report_line
                                (links_wanted (nth 2 (w_stdin w) ""))
                                full_path img) images lines.
Proof.
  unfold main_body. intros H.
  inv_bind H u w0 H0. inv_bind H svc w1 Hauth. inv_bind H line w2 Hin.
  cbv zeta in H.
  inv_bind H u1 w3 H3. inv_bind H images w4 Hlist.
  destruct images as [|img images].
  { right; left. injection H as _ <-. simpl. by rewrite last_snoc. }
  inv_bind H u2 w5 H5. inv_bind H line1 w6 H6. inv_bind H line2 w7 H7.
  cbv zeta in H.
  inv_bind H u3 w8 Hsave. inv_bind H u4 w9 Hopen. inv_bind H u5 w10 Hwrite.
  right; right.
  assert (w_stdin w = line :: line1 :: line2 :: w_stdin w7) as Hstdin.
  { apply print_frame in H0 as [_ Hs0].
    destruct (authenticate_gdrive_frame lib _ _ _ Hauth) as (Hs1 & _).
    apply input_frame in Hin as [_ Hs2]. specialize (Hs2 _ eq_refl).
    apply print_frame in H3 as [_ Hs3].
    pose proof (run_listing_frame _ _ _ _ _ _ Hlist) as [_ Hs4].
    apply print_frame in H5 as [_ Hs5].
    apply input_frame in H6 as [_ Hs6]. specialize (Hs6 _ eq_refl).
    apply input_frame in H7 as [_ Hs7]. specialize (Hs7 _ eq_refl).
    rewrite <- Hs0, <- Hs1, Hs2. f_equal.
    rewrite <- Hs3, <- Hs4, <- Hs5, Hs6. f_equal. exact Hs7. }
  rewrite Hstdin. simpl nth.
  apply run_listing_inv in Hlist as [t Hlist].
  change (if Py.truthy (Py.strip line1) then Py.strip line1
          else "image_paths.txt") with (output_name line1) in *.
  change (negb (Py.lower (Py.strip line2) =? "n")%string)
    with (links_wanted line2) in Hsave.
  destruct u3. apply save_image_paths_inv in Hsave as [_ Hreport].
  destruct (Hreport eq_refl) as (lines & Hcontent & Hlines).
  exists svc, w1, (img :: images), t, lines.
  split; [by rewrite bind_eq, H0|].
  split; [exact Hlist|].
  injection H as _ <-.
  split; [simpl; by rewrite last_snoc|].
  split; [|exact Hlines].
  intros Hne. simpl. unfold write in Hwrite. injection Hwrite as _ <-.
  simpl. rewrite lookup_insert_ne by assumption.
  unfold open_w in Hopen.
  destruct (w_denied w8 !! _); [discriminate|].
  injection Hopen as _ <-. simpl.
  by rewrite lookup_insert_ne.
Qed.

(** X16.  Whenever a run of [main] ends by announcing the JSON file, the
    announced name is the one derived from the output name typed on the
    second line of input; and when the two names differ, the output file
    holds the report: the header with the number of listed images, then
    one line per image, in order, with or without the links as the third
    line of input asks. *)
Theorem report_written lib fuel w w' json_file :
  main lib fuel w = Some w' ->
  last (w_trace w')
  = Some (EPrint ("Also saved JSON data to " +:+ json_file)) ->
  json_file = json_file_of (output_name (nth 1 (w_stdin w) ""))
  /\ exists svc w1 images t lines,
       (print "Authenticating with Google Drive...";;
        authenticate_gdrive lib) w = Some (Ret svc, w1)
       /\ get_image_files svc fuel (folder_scope (nth 0 (w_stdin w) ""))
          = Some (Ret images, t)
       /\ (json_file <> output_name (nth 1 (w_stdin w) "") ->
           w_files w' !! output_name (nth 1 (w_stdin w) "")
           = Some (report_header (List.length images) +:+ cat lines))
       /\ Forall2 (fun img line =>
                     exists full_path,
                       line = report_line
                                (links_wanted (nth 2 (w_stdin w) ""))
                                full_path img) images lines.
Proof.
  unfold main. intros Hmain Hlast.
  destruct (main_body lib fuel w) as [[[[]|e] wb]|] eqn:Hbody;
    [| |discriminate].
  - injection Hmain as ->.
    destruct (main_body_success _ _ _ _ _ Hbody)
      as [[e He]|[Hnone|(svc & w1 & images & t & lines
                         & Hauth & Hl & Hlast' & Hrep & Hlines)]].
    + discriminate.
    + rewrite Hnone in Hlast. discriminate.
    + rewrite Hlast' in Hlast. injection Hlast as Heq.
      change (json_file_of (output_name (nth 1 (w_stdin w) "")) = json_file)
        in Heq.
      subst json_file. split; [reflexivity|]. eauto 10.
  - simpl in Hmain. injection Hmain as <-. simpl in Hlast.
    rewrite last_snoc in Hlast. discriminate.
Qed.

Lemma report_written_witness :
  exists w',
    main (Demo.lib Demo.svc) 5 (Demo.world_of [""; "out.txt"; "n"]) = Some w'
    /\ exists lines,
         w_files w' !! "out.txt" = Some (report_header 3 +:+ cat lines)
         /\ List.length lines = 3.
Proof.
  destruct (main (Demo.lib Demo.svc) 5 (Demo.world_of [""; "out.txt"; "n"]))
    as [w'|] eqn:Hmain; [|vm_compute in Hmain; discriminate].
  destruct (report_written (Demo.lib Demo.svc) 5
              (Demo.world_of [""; "out.txt"; "n"]) w' "out.json" Hmain)
    as (_ & svc & w1 & images & t & lines & Hauth & Hl & Hrep & Hlines).
  { vm_compute in Hmain. injection Hmain as <-. reflexivity. }
  exists w'. split; [reflexivity|].
  vm_compute in Hauth. injection Hauth as <- _.
  vm_compute in Hl. injection Hl as <- _.
  exists lines. split.
  - apply Hrep. discriminate.
  - by rewrite <- (Forall2_length _ _ _ Hlines).
Defined.
